(** * FTIR annotator: peak detection and rule matching

    A shallow embedding of the peak detector of [src/lib/csvParser.js] and
    of the rule matcher of [src/lib/ruleMatcher.js].

    JavaScript numbers are modelled as exact rationals ([Q]): every
    arithmetic operation is the exact one, so no rounding error, NaN or
    infinity arises except where the code produces one on purpose
    ([Math.max] of nothing).  The transcendental functions the code calls
    ([Math.log10], [Math.exp], [Math.sqrt]) are parameters of the model. *)

From Stdlib Require Import String.
From Stdlib Require Import QArith Qround Qabs Qminmax Qpower ZArith List.
From Stdlib Require Import Bool.
From Stdlib Require Import Lia Lqa Sorting.Sorted Sorting.Permutation.
Import ListNotations.

Local Open Scope Q_scope.

(* ================================================================== *)
(** ** JavaScript primitives used by both files *)
(* ================================================================== *)

(** [parseFloat(x.toFixed(digits))]: the magnitude is scaled by
    [10^digits], rounded to the nearest integer with ties going up, and
    the sign is put back. *)
Definition toFixed (digits : nat) (x : Q) : Q :=
  let scale := Z.to_pos (10 ^ Z.of_nat digits) in
  let n := Qfloor (Qabs x * inject_Z (Zpos scale) + (1 # 2)) in
  if Qle_bool 0 x then Qmake n scale else Qmake (- n) scale.

(** [Math.max(...xs)]; [None] stands for [-Infinity], the value on an
    empty argument list. *)
Definition Math_max (xs : list Q) : option Q :=
  fold_left (fun acc x => match acc with
                          | None => Some x
                          | Some m => Some (Qmax m x)
                          end) xs None.

(** [Math.max(0, Math.min(x, 1.0))] *)
Definition clamp01 (x : Q) : Q := Qmax 0 (Qmin x 1).

(** [x || d] on an optional number: [undefined] and [0] are falsy. *)
Definition or_number (x : option Q) (d : Q) : Q :=
  match x with
  | Some q => if Qeq_bool q 0 then d else q
  | None => d
  end.

(** [x || d] on an optional string: [undefined] and the empty string are
    falsy. *)
Definition or_string (x : option string) (d : string) : string :=
  match x with
  | Some EmptyString => d
  | Some s => s
  | None => d
  end.

(** [x || d] on an optional object or array: only [undefined] is falsy. *)
Definition or_object {A : Type} (x : option A) (d : A) : A :=
  match x with
  | Some a => a
  | None => d
  end.

Definition Q_of_nat (n : nat) : Q := inject_Z (Z.of_nat n).

(** [xs.slice(start, end)] for non-negative bounds. *)
Definition slice {A : Type} (xs : list A) (start end_ : nat) : list A :=
  firstn (end_ - start) (skipn start xs).

(** [xs.sort(cmp)] for a comparator that is a consistent ordering: the
    sort is stable, an element moves in front of another only when the
    comparator is positive on the pair. *)
Fixpoint sort_insert {A : Type} (cmp : A -> A -> Q) (x : A) (l : list A)
  : list A :=
  match l with
  | [] => [x]
  | y :: l' => if Qle_bool (cmp x y) 0 then x :: y :: l'
               else y :: sort_insert cmp x l'
  end.

Fixpoint js_sort {A : Type} (cmp : A -> A -> Q) (l : list A) : list A :=
  match l with
  | [] => []
  | x :: l' => sort_insert cmp x (js_sort cmp l')
  end.

(** A comparator [(a, b) => key(b) - key(a)], and the test that an
    element has a given key value. *)
Definition keyDesc {A : Type} (key : A -> Q) (a b : A) : Q := key b - key a.

Definition descBy {A : Type} (key : A -> Q) (a b : A) : Prop :=
  key b <= key a.


(* ================================================================== *)
(** ** Binary64 arithmetic *)
(* ================================================================== *)

(** A JavaScript number is an IEEE 754 binary64 value.  A finite double
    is a rational, and every arithmetic operation returns the exact
    result rounded to 53 significant bits, to nearest, ties to even.
    [rnd53] is that rounding with no bound on the exponent: it is the
    rounding of binary64 wherever the result neither overflows nor
    falls in the subnormal range.  NaN and the infinities are
    modelled, as elsewhere, by [option] where the code produces
    them. *)

(** Round to the nearest integer, ties to even. *)
Definition rne (y : Q) : Z :=
  let f := Qfloor y in
  match Qcompare (y - inject_Z f) (1 # 2) with
  | Lt => f
  | Gt => (f + 1)%Z
  | Eq => if Z.even f then f else (f + 1)%Z
  end.

(** The exponent [e] with [2^e <= x < 2^(e+1)], for [x > 0]. *)
Definition ilog2 (x : Q) : Z :=
  let e := (Z.log2 (Qnum x) - Z.log2 (Zpos (Qden x)))%Z in
  if Qle_bool (2 ^ e) x then e else (e - 1)%Z.

Definition rnd53_pos (x : Q) : Q :=
  let q := (ilog2 x - 52)%Z in
  inject_Z (rne (x / 2 ^ q)) * 2 ^ q.

Definition rnd53 (x : Q) : Q :=
  match Qnum x with
  | Z0 => 0
  | Zpos _ => Qred (rnd53_pos x)
  | Zneg _ => Qred (- rnd53_pos (- x))
  end.

(** A number literal of the source, or a number of a JSON document, as
    the double it denotes. *)
Definition dbl (x : Q) : Q := rnd53 x.

(** [x + y], [x - y], [x * y] and [x / y] on doubles. *)
Definition fadd (x y : Q) : Q := rnd53 (x + y).
Definition fsub (x y : Q) : Q := rnd53 (x - y).
Definition fmul (x y : Q) : Q := rnd53 (x * y).
Definition fdiv (x y : Q) : Q := rnd53 (x / y).

(** [parseFloat(x.toFixed(digits))] on a double: [toFixed] rounds the
    exact value of [x] to a decimal, [parseFloat] gives the double
    nearest to that decimal. *)
Definition toFixed64 (digits : nat) (x : Q) : Q := rnd53 (toFixed digits x).

(* ================================================================== *)
(** ** Data model *)
(* ================================================================== *)

(** A detected peak, as built by [detectPeaks]. *)
Record Peak := mkPeak {
  position : Q;
  intensity : Q;
  fwhm : Q;
  height : Q;
  prominence : Q;
  snr : Q;
  index : nat
}.

(** The rules database is a JSON document: every field may be absent. *)
Record PrimarySpec := mkPrimarySpec {
  pp_wavenumber : option (Q * Q);
  pp_shape : option string;
  pp_intensity : option string
}.

Record SecondarySpec := mkSecondarySpec {
  sp_wavenumber : option (Q * Q);
  sp_required : option bool
}.

Record SubType := mkSubType {
  st_id : option string;
  st_source : option string;
  st_confidence : option Q;
  st_primaryPeak : option PrimarySpec;
  st_secondaryPeaks : option (list SecondarySpec);
  st_notes : option string
}.

Record Mode := mkMode {
  md_name : option string;
  md_subTypes : option (list SubType)
}.

(** [vibrationModes] is listed in [Object.entries] order. *)
Record RulesDb := mkRulesDb {
  vibrationModes : option (list (string * Mode))
}.

Record Scoring := mkScoring {
  baseConfidence : Q;
  shapeBonus : Q;
  intensityBonus : Q;
  secondaryBonus : Q;
  sc_wavenumberMatch : bool;
  sc_shapeMatch : bool;
  sc_intensityMatch : bool;
  sc_secondaryMatch : bool
}.

Record Candidate := mkCandidate {
  vibrationMode : string;
  source : string;
  confidence : Q;
  peakIndex : nat;
  ruleKey : string;
  ruleSubtype : string;
  secondaryPeaksFound : nat;
  notes : string;
  scoring : Scoring
}.

Record Annotation := mkAnnotation {
  an_peakIndex : nat;
  an_peakPosition : Q;
  an_peakIntensity : Q;
  an_peakFwhm : Q;
  an_peakSNR : Q;
  primaryMatch : Candidate;
  topFiveCandidates : list Candidate;
  numCandidates : nat;
  confidenceRange : list Q;
  isAmbiguous : bool
}.

Record Ambiguity := mkAmbiguity {
  am_peakIndex : nat;
  am_peakPosition : Q;
  am_peakIntensity : Q;
  am_peakFwhm : Q;
  topConfidence : Q;
  secondConfidence : Q;
  confidenceGap : Q;
  topCandidates : list Candidate;
  allCandidates : list Candidate;
  note : string
}.

(* ================================================================== *)
(** ** ruleMatcher.js *)
(* ================================================================== *)

Definition wavenumberMatch (peakPosition : Q) (ruleRange : Q * Q)
  (tolerance : Q) : bool :=
  let '(minWn, maxWn) := ruleRange in
  let rangeSize := maxWn - minWn in
  let tol := rangeSize * tolerance in
  Qle_bool (minWn - tol) peakPosition && Qle_bool peakPosition (maxWn + tol).

(** The [shapeSpecs] table. *)
Definition shapeSpecs (ruleShape : string) : option (Q * Q) :=
  if String.eqb ruleShape "sharp" then Some (10, 50)
  else if String.eqb ruleShape "medium" then Some (50, 100)
  else if String.eqb ruleShape "broad" then Some (100, 300)
  else if String.eqb ruleShape "very-broad" then Some (300, 1200)
  else if String.eqb ruleShape "medium-broad" then Some (80, 150)
  else None.

Definition Qlt_bool (a b : Q) : bool := negb (Qle_bool b a).

Definition shapeMatch (peakFWHM : Q) (ruleShape : string) : bool * Q :=
  match shapeSpecs ruleShape with
  | None => (true, 0)
  | Some (minFwhm, maxFwhm) =>
      if Qle_bool minFwhm peakFWHM && Qle_bool peakFWHM maxFwhm
      then (true, 5 # 100)
      else if Qlt_bool peakFWHM (minFwhm * (7 # 10)) then (false, - (2 # 10))
      else if Qlt_bool (maxFwhm * (15 # 10)) peakFWHM then (false, - (2 # 10))
      else (true, 0)
  end.

(** The [thresholds] table. *)
Definition thresholds (ruleIntensity : string) : option (Q * Q) :=
  if String.eqb ruleIntensity "strong" then Some (5 # 10, 1)
  else if String.eqb ruleIntensity "medium to strong" then Some (4 # 10, 1)
  else if String.eqb ruleIntensity "medium" then Some (2 # 10, 7 # 10)
  else if String.eqb ruleIntensity "weak to medium" then Some (1 # 10, 6 # 10)
  else if String.eqb ruleIntensity "weak" then Some (1 # 100, 3 # 10)
  else if String.eqb ruleIntensity "variable" then Some (0, 1)
  else None.

(** [spectrumMaxIntensity] is a [Math.max] result: [None] is [-Infinity]. *)
Definition intensityCheck (peakIntensity : Q) (ruleIntensity : string)
  (spectrumMaxIntensity : option Q) : bool * Q :=
  match thresholds ruleIntensity with
  | None => (true, 0)
  | Some (minThresh, maxThresh) =>
      let normIntensity :=
        match spectrumMaxIntensity with
        | Some m => if Qlt_bool 0 m then peakIntensity / m else 0
        | None => 0
        end in
      if Qle_bool minThresh normIntensity && Qle_bool normIntensity maxThresh
      then (true, 5 # 100)
      else (true, 0)
  end.

(** The test of the inner loop of [findSecondaryPeaks] on one peak. *)
Definition secondaryHit (primaryPosition maxWavenumberGap : Q)
  (specRange : Q * Q) (peak : Peak) : bool :=
  wavenumberMatch (position peak) specRange (1 # 10)
  && Qle_bool (Qabs (position peak - primaryPosition)) maxWavenumberGap.

(** The inner loop: the index of the first peak, from [peakIdx] on, that
    passes the test. *)
Fixpoint scanPeaks (primaryPosition maxWavenumberGap : Q)
  (specRange : Q * Q) (peaks : list Peak) (peakIdx : nat) : option nat :=
  match peaks with
  | [] => None
  | peak :: rest =>
      if secondaryHit primaryPosition maxWavenumberGap specRange peak
      then Some peakIdx
      else scanPeaks primaryPosition maxWavenumberGap specRange rest
             (S peakIdx)
  end.

Definition specRangeOf (spec : SecondarySpec) : Q * Q :=
  or_object (sp_wavenumber spec) (0, 10000).

Definition specRequiredOf (spec : SecondarySpec) : bool :=
  or_object (sp_required spec) false.

(** The outer loop, with the matches pushed so far. *)
Fixpoint secondaryLoop (primaryPosition maxWavenumberGap : Q)
  (peaks : list Peak) (secondarySpecs : list SecondarySpec)
  (matches : list (nat * SecondarySpec)) : list (nat * SecondarySpec) :=
  match secondarySpecs with
  | [] => matches
  | spec :: rest =>
      match scanPeaks primaryPosition maxWavenumberGap (specRangeOf spec)
              peaks 0 with
      | Some peakIdx =>
          secondaryLoop primaryPosition maxWavenumberGap peaks rest
            (matches ++ [(peakIdx, spec)])
      | None =>
          if specRequiredOf spec then []
          else secondaryLoop primaryPosition maxWavenumberGap peaks rest
                 matches
      end
  end.

(** [findSecondaryPeaks]; [None] is the [TypeError] raised when
    [peaks[primaryPeakIdx]] is [undefined]. *)
Definition findSecondaryPeaks (primaryPeakIdx : nat)
  (secondarySpecs : list SecondarySpec) (peaks : list Peak)
  (maxWavenumberGap : Q) : option (list (nat * SecondarySpec)) :=
  match nth_error peaks primaryPeakIdx with
  | None => None
  | Some primary =>
      Some (secondaryLoop (position primary) maxWavenumberGap peaks
              secondarySpecs [])
  end.

(** What one turn of the loop over the subtypes does. *)
Inductive Outcome :=
| Skip                      (* [continue] *)
| Emit (c : Candidate)      (* [candidates.push(matchDict)] *)
| Throw.                    (* an exception leaves the function *)

Definition defaultPrimary : PrimarySpec := mkPrimarySpec None None None.

(** The adjusted confidence, before it is rounded for the record. *)
Definition adjustConfidence (baseConfidence shapeBonus intensityBonus : Q)
  (requiredMissing : bool) (secondaryBonus : Q) : Q :=
  let adjustedConfidence :=
    clamp01 (baseConfidence + shapeBonus + intensityBonus) in
  if requiredMissing then adjustedConfidence * (5 # 10)
  else clamp01 (adjustedConfidence + secondaryBonus).

(** The body of the loop over [mode.subTypes] in [matchPeakCandidates]. *)
Definition scoreSubtype (peakIdx : nat) (peak : Peak) (allPeaks : list Peak)
  (maxIntensity : option Q) (modeKey modeName : string) (subtype : SubType)
  : Outcome :=
  let primary := or_object (st_primaryPeak subtype) defaultPrimary in
  let primaryRange := or_object (pp_wavenumber primary) (0, 10000) in
  let primaryShape := or_string (pp_shape primary) "sharp" in
  let ruleIntensity := or_string (pp_intensity primary) "medium" in
  if negb (wavenumberMatch (position peak) primaryRange (5 # 100)) then Skip
  else
    let '(shapeOk, shapeBonus) := shapeMatch (fwhm peak) primaryShape in
    if negb shapeOk then Skip
    else
      let '(intensityOk, intensityBonus) :=
        intensityCheck (intensity peak) ruleIntensity maxIntensity in
      let baseConfidence := or_number (st_confidence subtype) (7 # 10) in
      let secondaryPeaks := or_object (st_secondaryPeaks subtype) [] in
      match findSecondaryPeaks peakIdx secondaryPeaks allPeaks 200 with
      | None => Throw
      | Some secondaryMatches =>
          let requiredMissing :=
            (0 <? length (filter specRequiredOf secondaryPeaks))%nat
            && (length secondaryMatches =? 0)%nat in
          let secondaryBonus :=
            (1 # 10) * Q_of_nat (length secondaryMatches) in
          let adjustedConfidence :=
            adjustConfidence baseConfidence shapeBonus intensityBonus
              requiredMissing secondaryBonus in
          Emit {|
            vibrationMode := modeName;
            source := or_string (st_source subtype) "unknown";
            confidence := toFixed 3 adjustedConfidence;
            peakIndex := peakIdx;
            ruleKey := modeKey;
            ruleSubtype := or_string (st_id subtype) "?";
            secondaryPeaksFound := length secondaryMatches;
            notes := or_string (st_notes subtype) "";
            scoring := {|
              baseConfidence := toFixed 3 baseConfidence;
              shapeBonus := toFixed 3 shapeBonus;
              intensityBonus := toFixed 3 intensityBonus;
              secondaryBonus := toFixed 3 secondaryBonus;
              sc_wavenumberMatch := true;
              sc_shapeMatch := shapeOk;
              sc_intensityMatch := intensityOk;
              sc_secondaryMatch :=
                (0 <? length secondaryMatches)%nat
                || (length secondaryPeaks =? 0)%nat
            |}
          |}
      end.

(** The candidates pushed while the subtypes of one mode are visited, in
    order; [None] when a turn throws. *)
Fixpoint collectSubtypes (peakIdx : nat) (peak : Peak) (allPeaks : list Peak)
  (maxIntensity : option Q) (modeKey modeName : string)
  (subTypes : list SubType) : option (list Candidate) :=
  match subTypes with
  | [] => Some []
  | subtype :: rest =>
      match scoreSubtype peakIdx peak allPeaks maxIntensity modeKey modeName
              subtype with
      | Throw => None
      | Skip => collectSubtypes peakIdx peak allPeaks maxIntensity modeKey
                  modeName rest
      | Emit c =>
          match collectSubtypes peakIdx peak allPeaks maxIntensity modeKey
                  modeName rest with
          | None => None
          | Some cs => Some (c :: cs)
          end
      end
  end.

(** The loop over [Object.entries(rulesDb.vibrationModes || {})]. *)
Fixpoint collectModes (peakIdx : nat) (peak : Peak) (allPeaks : list Peak)
  (maxIntensity : option Q) (modes : list (string * Mode))
  : option (list Candidate) :=
  match modes with
  | [] => Some []
  | (modeKey, mode) :: rest =>
      let modeName := or_string (md_name mode) modeKey in
      match collectSubtypes peakIdx peak allPeaks maxIntensity modeKey
              modeName (or_object (md_subTypes mode) []) with
      | None => None
      | Some cs =>
          match collectModes peakIdx peak allPeaks maxIntensity rest with
          | None => None
          | Some cs' => Some (cs ++ cs')
          end
      end
  end.

(** The candidates of a peak in the order they are pushed. *)
Definition collectCandidates (peakIdx : nat) (peak : Peak) (rulesDb : RulesDb)
  (allPeaks : list Peak) : option (list Candidate) :=
  let maxIntensity := Math_max (map intensity allPeaks) in
  collectModes peakIdx peak allPeaks maxIntensity
    (or_object (vibrationModes rulesDb) []).

(** The comparator [(a, b) => b.confidence - a.confidence]. *)
Definition byConfidenceDesc : Candidate -> Candidate -> Q :=
  keyDesc confidence.

Definition matchPeakCandidates (peakIdx : nat) (peak : Peak)
  (rulesDb : RulesDb) (allPeaks : list Peak) : option (list Candidate) :=
  match collectCandidates peakIdx peak rulesDb allPeaks with
  | None => None
  | Some candidates => Some (slice (js_sort byConfidenceDesc candidates) 0 5)
  end.

(** One turn of the loop of [matchAllPeaks], on the peak at [peakIdx]. *)
Definition annotatePeak (peakIdx : nat) (peak : Peak)
  (candidates : list Candidate) : list Annotation :=
  match candidates with
  | [] => []
  | c0 :: rest =>
      [ {|
        an_peakIndex := peakIdx;
        an_peakPosition := toFixed 2 (position peak);
        an_peakIntensity := toFixed 4 (intensity peak);
        an_peakFwhm := toFixed 2 (fwhm peak);
        an_peakSNR := toFixed 2 (snr peak);
        primaryMatch := c0;
        topFiveCandidates := candidates;
        numCandidates := length candidates;
        confidenceRange := map confidence candidates;
        isAmbiguous :=
          match rest with
          | c1 :: _ => Qlt_bool (confidence c0 - confidence c1) (5 # 100)
          | [] => false
          end
      |} ]
  end.

Fixpoint matchPeaksFrom (peakIdx : nat) (todo : list Peak) (peaks : list Peak)
  (rulesDb : RulesDb) : option (list Annotation) :=
  match todo with
  | [] => Some []
  | peak :: rest =>
      match matchPeakCandidates peakIdx peak rulesDb peaks with
      | None => None
      | Some candidates =>
          match matchPeaksFrom (S peakIdx) rest peaks rulesDb with
          | None => None
          | Some annotations =>
              Some (annotatePeak peakIdx peak candidates ++ annotations)
          end
      end
  end.

Definition matchAllPeaks (peaks : list Peak) (rulesDb : RulesDb)
  : option (list Annotation) :=
  matchPeaksFrom 0 peaks peaks rulesDb.

(** One turn of the loop of [detectAmbiguities]. *)
Definition ambiguityOf (confidenceGapThreshold : Q) (annotation : Annotation)
  : list Ambiguity :=
  let candidates := topFiveCandidates annotation in
  match candidates with
  | c0 :: c1 :: _ =>
      let conf1 := confidence c0 in
      let conf2 := confidence c1 in
      let gap := conf1 - conf2 in
      if Qle_bool gap confidenceGapThreshold then
        [ {|
          am_peakIndex := an_peakIndex annotation;
          am_peakPosition := an_peakPosition annotation;
          am_peakIntensity := an_peakIntensity annotation;
          am_peakFwhm := an_peakFwhm annotation;
          topConfidence := toFixed 3 conf1;
          secondConfidence := toFixed 3 conf2;
          confidenceGap := toFixed 3 gap;
          topCandidates := slice candidates 0 2;
          allCandidates := candidates;
          note := "Multiple plausible explanations - expert review recommended"
        |} ]
      else []
  | _ => []
  end.

Definition detectAmbiguities (annotations : list Annotation)
  (confidenceGapThreshold : Q) : list Ambiguity :=
  flat_map (ambiguityOf confidenceGapThreshold) annotations.

(* ================================================================== *)
(** ** The matcher's rules in the words of its documentation *)
(* ================================================================== *)

(** The fields of a subtype with the defaults [matchPeakCandidates]
    gives them. *)
Definition primaryRangeOf (subtype : SubType) : Q * Q :=
  or_object (pp_wavenumber (or_object (st_primaryPeak subtype) defaultPrimary))
    (0, 10000).

Definition primaryShapeOf (subtype : SubType) : string :=
  or_string (pp_shape (or_object (st_primaryPeak subtype) defaultPrimary))
    "sharp".

Definition ruleIntensityOf (subtype : SubType) : string :=
  or_string (pp_intensity (or_object (st_primaryPeak subtype) defaultPrimary))
    "medium".

Definition secondarySpecsOf (subtype : SubType) : list SecondarySpec :=
  or_object (st_secondaryPeaks subtype) [].

(** The peak a secondary spec finds, if any. *)
Definition specMatch (primaryPosition maxWavenumberGap : Q)
  (allPeaks : list Peak) (spec : SecondarySpec) : option nat :=
  scanPeaks primaryPosition maxWavenumberGap (specRangeOf spec) allPeaks 0.

(** Some required secondary spec finds no peak. *)
Definition requiredUnmatched (primaryPosition maxWavenumberGap : Q)
  (allPeaks : list Peak) (specs : list SecondarySpec) : bool :=
  existsb (fun spec =>
             specRequiredOf spec
             && match specMatch primaryPosition maxWavenumberGap allPeaks spec
                with
                | Some _ => false
                | None => true
                end) specs.

(** The secondary specs that find a peak, each with the peak found. *)
Definition matchedSpecs (primaryPosition maxWavenumberGap : Q)
  (allPeaks : list Peak) (specs : list SecondarySpec)
  : list (nat * SecondarySpec) :=
  flat_map (fun spec =>
              match specMatch primaryPosition maxWavenumberGap allPeaks spec
              with
              | Some peakIdx => [(peakIdx, spec)]
              | None => []
              end) specs.

(** The score of a subtype before the secondary peaks are looked at:
    [clamp(base + shapeBonus + intensityBonus, 0, 1)]. *)
Definition primaryScore (peak : Peak) (allPeaks : list Peak)
  (subtype : SubType) : Q :=
  clamp01 (or_number (st_confidence subtype) (7 # 10)
           + snd (shapeMatch (fwhm peak) (primaryShapeOf subtype))
           + snd (intensityCheck (intensity peak) (ruleIntensityOf subtype)
                    (Math_max (map intensity allPeaks)))).

(** The confidence as the documentation composes it: the primary score,
    halved when a required secondary spec is unmatched, and otherwise
    raised by [0.1] for each matched secondary spec and clamped again.
    [primary] is the peak at the index given to [matchPeakCandidates]. *)
Definition composedConfidence (peak primary : Peak) (allPeaks : list Peak)
  (subtype : SubType) : Q :=
  if requiredUnmatched (position primary) 200 allPeaks
       (secondarySpecsOf subtype)
  then primaryScore peak allPeaks subtype * (5 # 10)
  else clamp01 (primaryScore peak allPeaks subtype
                + (1 # 10) * Q_of_nat (length (matchedSpecs (position primary)
                                                 200 allPeaks
                                                 (secondarySpecsOf subtype)))).

(** The number of secondary matches [matchPeakCandidates] counts. *)
Definition secondaryCount (primary : Peak) (allPeaks : list Peak)
  (subtype : SubType) : nat :=
  length (if requiredUnmatched (position primary) 200 allPeaks
               (secondarySpecsOf subtype) then []
          else matchedSpecs (position primary) 200 allPeaks
                 (secondarySpecsOf subtype)).

(** The candidate a turn of the loop pushes, if any. *)
Definition emitOf (o : Outcome) : list Candidate :=
  match o with
  | Emit c => [c]
  | _ => []
  end.

(** A subtype passes the two gates of [matchPeakCandidates]. *)
Definition passesGates (peak : Peak) (subtype : SubType) : bool :=
  wavenumberMatch (position peak) (primaryRangeOf subtype) (5 # 100)
  && fst (shapeMatch (fwhm peak) (primaryShapeOf subtype)).

(** The subtypes of a database, each with the key of its mode, in
    iteration order. *)
Definition subtypesOf (rulesDb : RulesDb) : list (string * SubType) :=
  flat_map (fun entry : string * Mode =>
              map (fun subtype => (fst entry, subtype))
                (or_object (md_subTypes (snd entry)) []))
    (or_object (vibrationModes rulesDb) []).

(** A subtype with its declared base confidence, or its list of secondary
    specs, replaced. *)
Definition withConfidence (conf : option Q) (s : SubType) : SubType :=
  mkSubType (st_id s) (st_source s) conf (st_primaryPeak s)
    (st_secondaryPeaks s) (st_notes s).


(** A subtype with a declared base confidence of 0 turned into one that
    declares none, and a database with a function applied to every
    subtype. *)
Definition undeclareZero (s : SubType) : SubType :=
  match st_confidence s with
  | Some q => if Qeq_bool q 0 then withConfidence None s else s
  | None => s
  end.

Definition mapSubTypes (f : SubType -> SubType) (rulesDb : RulesDb)
  : RulesDb :=
  mkRulesDb
    (option_map
       (map (fun entry : string * Mode =>
               (fst entry,
                mkMode (md_name (snd entry))
                  (option_map (map f) (md_subTypes (snd entry))))))
       (vibrationModes rulesDb)).

(** The gap between the two best candidates of an annotation ([0] when
    there are fewer than two), and the ambiguity rule of the
    documentation: at least two candidates, and a gap within the
    threshold. *)
Definition confidenceAt (candidates : list Candidate) (i : nat) : Q :=
  nth i (map confidence candidates) 0.




(* ================================================================== *)
(** ** Example rules and peaks *)
(* ================================================================== *)

(** A sharp, strong peak at 1715 cm-1, alone in its spectrum. *)
Definition carbonylPeak : Peak :=
  mkPeak 1715 (1 # 2) 30 (1 # 2) (1 # 10) 20 4.

Definition carbonylPrimary : PrimarySpec :=
  mkPrimarySpec (Some (1700, 1750)) (Some "sharp"%string)
    (Some "strong"%string).

Definition carbonylSubtype (id : string) (conf : option Q)
  (specs : option (list SecondarySpec)) : SubType :=
  mkSubType (Some id) (Some "handbook"%string) conf (Some carbonylPrimary)
    specs None.

Definition dbOf (subTypes : list SubType) : RulesDb :=
  mkRulesDb (Some [("carbonyl"%string,
                    mkMode (Some "C=O stretch"%string) (Some subTypes))]).

(** A secondary spec around 1715 cm-1, and one around 3400 cm-1 that no
    peak of the example spectrum satisfies. *)
Definition nearSpec (required : bool) : SecondarySpec :=
  mkSecondarySpec (Some (1700, 1730)) (Some required).

Definition farSpec (required : bool) : SecondarySpec :=
  mkSecondarySpec (Some (3300, 3500)) (Some required).

(** Six subtypes that all match the example peak: one scores 0.95, the
    five others tie at 0.9. *)
Definition tiedDb : RulesDb :=
  dbOf [carbonylSubtype "a" (Some (8 # 10)) None;
        carbonylSubtype "b" (Some (85 # 100)) None;
        carbonylSubtype "c" (Some (8 # 10)) None;
        carbonylSubtype "d" (Some (8 # 10)) None;
        carbonylSubtype "e" (Some (8 # 10)) None;
        carbonylSubtype "f" (Some (8 # 10)) None].

(** A candidate of a given confidence, and an annotation of the example
    peak with given candidates. *)
Definition candidateWith (id : string) (conf : Q) : Candidate :=
  mkCandidate "C=O stretch" "handbook" conf 0 "carbonyl" id 0 ""
    (mkScoring conf 0 0 0 true true true true).

Definition annotationWith (candidates : list Candidate) : Annotation :=
  mkAnnotation 0 1715 (1 # 2) 30 20 (hd (candidateWith "" 0) candidates)
    candidates (length candidates) (map confidence candidates) false.

(* ================================================================== *)
(** ** csvParser.js: the peak detector *)
(* ================================================================== *)

(** The functions of the [Math] object that have no rational closed form;
    the model is parametric in them. *)
Record MathObj := mkMath {
  Math_log10 : Q -> Q;
  Math_exp : Q -> Q;
  Math_sqrt : Q -> Q
}.

(** [xs[i]] at an index that is in range ([0] stands for [undefined],
    which the callers below never read). *)
Definition at_index (xs : list Q) (i : nat) : Q := nth i xs 0.

(** [xs.map((x, i) => f(x, i))] *)
Fixpoint mapi_from {A B : Type} (f : A -> nat -> B) (i : nat) (xs : list A)
  : list B :=
  match xs with
  | [] => []
  | x :: xs' => f x i :: mapi_from f (S i) xs'
  end.

Definition mapi {A B : Type} (f : A -> nat -> B) (xs : list A) : list B :=
  mapi_from f 0 xs.

(** [xs.reduce((a, b) => a + b, 0)] *)
Definition sumQ (xs : list Q) : Q := fold_left Qplus xs 0.

Section PeakDetector.

Variable M : MathObj.

Definition transmittanceToAbsorbance (transmittance : list Q) : list Q :=
  map (fun t =>
         let t_clipped := Qmax (1 # 10) (Qmin t 100) in
         Math_log10 M (100 / t_clipped)) transmittance.

Definition gaussianWeights (size : nat) : list Q :=
  let sigma := Q_of_nat size / 4 in
  let center := Q_of_nat size / 2 in
  let weights :=
    map (fun i =>
           let x := Q_of_nat i - center in
           Math_exp M (- (x * x) / (2 * sigma * sigma))) (seq 0 size) in
  let sum := sumQ weights in
  map (fun w => w / sum) weights.

(** The inner loop of [fitPolynomial]: the weighted sum and the sum of the
    weights over the neighbours of [idx] that exist, from weight [i] on. *)
Fixpoint weightedSums (data : list Q) (idx half : nat) (weights : list Q)
  (i : nat) (num denom : Q) : Q * Q :=
  match weights with
  | [] => (num, denom)
  | w :: rest =>
      let dataIdx := (Z.of_nat idx - Z.of_nat half + Z.of_nat i)%Z in
      if (0 <=? dataIdx)%Z && (dataIdx <? Z.of_nat (length data))%Z
      then weightedSums data idx half rest (S i)
             (num + at_index data (Z.to_nat dataIdx) * w) (denom + w)
      else weightedSums data idx half rest (S i) num denom
  end.

(** [fitPolynomial]: the system matrix it builds is never read; the
    result is the Gaussian-weighted local average. *)
Definition fitPolynomial (data : list Q) (degree : nat) : list Q :=
  let weights := gaussianWeights (degree + 1) in
  mapi (fun _ idx =>
          let '(num, denom) :=
            weightedSums data idx (length weights / 2) weights 0 0 0 in
          if Qlt_bool 0 denom then num / denom else at_index data idx) data.

Definition savitzkyGolayFilter (data : list Q) (windowLength polyorder : nat)
  : list Q :=
  let windowLength :=
    if Nat.even windowLength then S windowLength else windowLength in
  let windowLength :=
    if (windowLength <? polyorder + 1)%nat then (polyorder + 1)%nat
    else windowLength in
  let windowLength :=
    if Nat.even windowLength then S windowLength else windowLength in
  if (length data <? windowLength)%nat then data
  else
    let half := (windowLength / 2)%nat in
    map (fun i =>
           let start := Nat.max 0 (i - half) in
           let end_ := Nat.min (length data) (i + half + 1) in
           let window := slice data start end_ in
           let fitted := fitPolynomial window polyorder in
           at_index fitted (length window / 2)) (seq 0 (length data)).

Definition removeLinearBaseline (data : list Q) : list Q :=
  let n := length data in
  if (n <? 2)%nat then data
  else
    let start := at_index data 0 in
    let end_ := at_index data (n - 1) in
    let baseline :=
      map (fun i => start + (end_ - start) * (Q_of_nat i / Q_of_nat (n - 1)))
        (seq 0 n) in
    mapi (fun y i => Qmax 0 (y - at_index baseline i)) data.

(** The minimum of [data[i]] and of the samples at [from], ..., [to - 1]. *)
Definition minOver (data : list Q) (i from to : nat) : Q :=
  fold_left (fun m j => Qmin m (at_index data j)) (seq from (to - from))
    (at_index data i).

Definition minLeft (data : list Q) (i : nat) : Q :=
  minOver data i (Nat.max 0 (i - 50)) i.

Definition minRight (data : list Q) (i : nat) : Q :=
  minOver data i (i + 1) (Nat.min (length data) (i + 50)).

Definition peakProminence (data : list Q) (i : nat) : Q :=
  Qmin (at_index data i - minLeft data i) (at_index data i - minRight data i).

(** The test the first loop of [findPeaks] applies at index [i]. *)
Definition isLocalPeak (data : list Q) (height prominence : Q) (i : nat)
  : bool :=
  Qlt_bool (at_index data (i - 1)) (at_index data i)
  && Qlt_bool (at_index data (i + 1)) (at_index data i)
  && Qle_bool height (at_index data i)
  && Qle_bool prominence (peakProminence data i).

(** The second loop of [findPeaks]: the distance criterion. *)
Fixpoint distanceFilter (distance : Z) (peaks : list nat)
  (peakHeights : list Q) (filtered : list nat) (filteredHeights : list Q)
  : list nat * list Q :=
  match peaks, peakHeights with
  | p :: peaks', h :: peakHeights' =>
      let keep :=
        forallb (fun q => negb (Z.abs (Z.of_nat p - Z.of_nat q) <? distance)%Z)
          filtered in
      if keep
      then distanceFilter distance peaks' peakHeights' (filtered ++ [p])
             (filteredHeights ++ [h])
      else distanceFilter distance peaks' peakHeights' filtered
             filteredHeights
  | _, _ => (filtered, filteredHeights)
  end.

(** The third loop of [findPeaks]: the width at half height, in points. *)
Definition peakWidth (data : list Q) (peakIdx : nat) : Z :=
  let halfHeight := at_index data peakIdx / 2 in
  let below := fun i => Qlt_bool (at_index data i) halfHeight in
  let leftEdge :=
    match find below (rev (seq 0 peakIdx)) with
    | Some i => i
    | None => peakIdx
    end in
  let rightEdge :=
    match find below (seq (peakIdx + 1) (length data - (peakIdx + 1))) with
    | Some i => i
    | None => peakIdx
    end in
  (Z.of_nat rightEdge - Z.of_nat leftEdge)%Z.

Record PeakProperties := mkPeakProperties {
  peak_heights : list Q;
  width : list Z;
  prominences : list Q
}.

Record FindPeaksResult := mkFindPeaksResult {
  peaks : list nat;
  properties : PeakProperties
}.

(** The indices the first loop of [findPeaks] pushes. *)
Definition localPeaks (data : list Q) (height prominence : Q) : list nat :=
  filter (isLocalPeak data height prominence) (seq 1 (length data - 2)).

(** [findPeaks]; [None] for [prominence] or [distance] is [null].  On an
    empty signal the default prominence is [-Infinity * 0.05]: it is
    compared with nothing, and [0] stands for it. *)
Definition findPeaks (data : list Q) (height : Q) (prominence : option Q)
  (distance : option Z) : FindPeaksResult :=
  let prominence :=
    match prominence with
    | Some p => p
    | None => match Math_max data with
              | Some maxVal => maxVal * (5 # 100)
              | None => 0
              end
    end in
  let distance :=
    match distance with
    | Some d => d
    | None => let d := Z.of_nat (length data / 200) in
              if (d =? 0)%Z then 1%Z else d
    end in
  let peaks := localPeaks data height prominence in
  let peakHeights := map (at_index data) peaks in
  let '(filtered, filteredHeights) :=
    distanceFilter distance peaks peakHeights [] [] in
  let widths := map (peakWidth data) filtered in
  {| peaks := filtered;
     properties := {| peak_heights := filteredHeights;
                      width := widths;
                      prominences := map (fun _ => prominence) filtered |} |}.

(** [calculateFWHMWavenumber].  With fewer than two wavenumbers the
    average spacing is [0/0]; [detectPeaks] never reads a width then. *)
Definition calculateFWHMWavenumber (peakIndices : list nat)
  (widthsInPoints : list Z) (wavenumber : list Q) : list Q :=
  let spacing :=
    map (fun i => Qabs (at_index wavenumber i - at_index wavenumber (i - 1)))
      (seq 1 (length wavenumber - 1)) in
  let avgSpacing := sumQ spacing / Q_of_nat (length spacing) in
  map (fun w => inject_Z w * avgSpacing) widthsInPoints.

(** [calculateSNR].  When the low-intensity region is empty the noise
    estimate is [0/0], a NaN, and [noiseStd || 1] is [1]. *)
Definition calculateSNR (peakHeights : list Q) (data : list Q) : list Q :=
  let sorted := js_sort (fun a b => a - b) data in
  let lowIntensityRegion := slice sorted 0 (length sorted / 10) in
  let n := Q_of_nat (length lowIntensityRegion) in
  let noiseEstimate := sumQ lowIntensityRegion / n in
  let noiseStd :=
    Math_sqrt M
      (fold_left (fun sum v => sum + (v - noiseEstimate) * (v - noiseEstimate))
         lowIntensityRegion 0 / n) in
  let denominator :=
    match lowIntensityRegion with
    | [] => 1
    | _ => or_number (Some noiseStd) 1
    end in
  map (fun h => h / denominator) peakHeights.

Record DetectOptions := mkDetectOptions {
  smoothWindowLength : option nat;
  smoothPolyorder : option nat;
  baselineMethod : option string;
  minHeight : option Q;
  prominencePercent : option Q;
  distancePercent : option Q
}.

(** All elements of a list of optional values, when none is missing. *)
Fixpoint allSome {A : Type} (xs : list (option A)) : option (list A) :=
  match xs with
  | [] => Some []
  | None :: _ => None
  | Some x :: xs' =>
      match allSome xs' with
      | Some ys => Some (x :: ys)
      | None => None
      end
  end.

(** The record [detectPeaks] builds for the peak at [peakIdx], the [i]-th
    one; [None] is the [TypeError] of [wn[peakIdx].toFixed] when the
    wavenumber array is shorter than the signal. *)
Definition buildPeak (wn absorbance fwhmWavenumber : list Q)
  (props : PeakProperties) (snrs : list Q) (peakIdx i : nat) : option Peak :=
  match nth_error wn peakIdx with
  | None => None
  | Some w =>
      Some {| position := toFixed 2 w;
              intensity := toFixed 4 (at_index absorbance peakIdx);
              fwhm := toFixed 2 (at_index fwhmWavenumber i);
              height := toFixed 4 (at_index (peak_heights props) i);
              prominence := toFixed 4 (at_index (prominences props) i);
              snr := toFixed 2 (at_index snrs i);
              index := peakIdx |}
  end.

(** The comparator [(a, b) => b.position - a.position]. *)
Definition byPositionDesc : Peak -> Peak -> Q := keyDesc position.

(** [detectPeaks]; [None] is an exception.  On an empty transmittance
    array [maxAbs] is [-Infinity], [findPeaks] has no sample to test and
    the peak list is empty. *)
Definition detectPeaks (wavenumber transmittance : list Q)
  (options : DetectOptions) : option (list Peak) :=
  let smoothWindowLength := or_object (smoothWindowLength options) 11%nat in
  let smoothPolyorder := or_object (smoothPolyorder options) 3%nat in
  let baselineMethod := or_object (baselineMethod options) "linear"%string in
  let minHeight := or_object (minHeight options) (5 # 1000) in
  let prominencePercent := or_object (prominencePercent options) 5 in
  let distancePercent := or_object (distancePercent options) 2 in
  let descending :=
    match wavenumber with
    | [] => false
    | w0 :: _ => Qlt_bool (last wavenumber w0) w0
    end in
  let wn := if descending then rev wavenumber else wavenumber in
  let tm := if descending then rev transmittance else transmittance in
  let absorbance := transmittanceToAbsorbance tm in
  let absorbance :=
    savitzkyGolayFilter absorbance smoothWindowLength smoothPolyorder in
  let absorbance :=
    if String.eqb baselineMethod "linear" then removeLinearBaseline absorbance
    else absorbance in
  match Math_max absorbance with
  | None => Some []
  | Some maxAbs =>
      let height := Qmax minHeight (maxAbs * (1 # 100)) in
      let prominence := maxAbs * (prominencePercent / 100) in
      let distance :=
        Z.max 1 (Qfloor (Q_of_nat (length wn) * (distancePercent / 100))) in
      let result := findPeaks absorbance height (Some prominence)
                      (Some distance) in
      let properties := properties result in
      let fwhmWavenumber :=
        calculateFWHMWavenumber (peaks result) (width properties) wn in
      let snrs := calculateSNR (peak_heights properties) absorbance in
      match allSome (mapi (buildPeak wn absorbance fwhmWavenumber properties
                             snrs) (peaks result)) with
      | None => None
      | Some peakList => Some (js_sort byPositionDesc peakList)
      end
  end.

End PeakDetector.

(* ================================================================== *)
(** ** The prominence in the words of the specification *)
(* ================================================================== *)

(** The specification takes the minimum over up to 50 samples on either
    side of the candidate: [data[i-50..i-1]] and [data[i+1..i+50]], cut
    at the ends of the signal. *)
Definition specMinLeft (data : list Q) (i : nat) : Q :=
  minOver data i (i - 50) i.

Definition specMinRight (data : list Q) (i : nat) : Q :=
  minOver data i (i + 1) (Nat.min (length data) (i + 51)).

Definition specProminence (data : list Q) (i : nat) : Q :=
  Qmin (at_index data i - specMinLeft data i)
       (at_index data i - specMinRight data i).

(** A peak at index 1 followed by a plateau of 49 samples at 0.99 and,
    50 samples after the peak, a sample at 0. *)
Definition plateau : list Q := [0; 1] ++ repeat (99 # 100) 49 ++ [0].

(* ================================================================== *)
(** ** Rational stand-ins for the [Math] functions *)
(* ================================================================== *)

(** To run the model on a concrete spectrum the [Math] functions are
    replaced by rational approximations that are exact where the examples
    below evaluate them: [log10] at the powers of ten, [exp] at [0],
    [sqrt] at [0]. *)
Definition log10_from1 (x : Q) : Q :=
  if Qlt_bool x 10 then (x - 1) / 9
  else if Qlt_bool x 100 then 1 + (x - 10) / 90
  else 2 + (x - 100) / 900.

Definition log10_interp (x : Q) : Q :=
  if Qlt_bool x 1 then - log10_from1 (1 / x) else log10_from1 x.

Definition exp_taylor (y : Q) : Q :=
  1 + y + y * y / 2 + y * y * y / 6 + y * y * y * y / 24.

Definition exp_approx (x : Q) : Q :=
  if Qlt_bool x 0 then 1 / exp_taylor (- x) else exp_taylor x.

Fixpoint heron (steps : nat) (x r : Q) : Q :=
  match steps with
  | O => r
  | S steps' => heron steps' x (Qred ((r + x / r) / 2))
  end.

Definition sqrt_heron (x : Q) : Q :=
  if Qle_bool x 0 then 0 else heron 6 x (Qred ((x + 1) / 2)).

Definition MathQ : MathObj :=
  {| Math_log10 := log10_interp; Math_exp := exp_approx;
     Math_sqrt := sqrt_heron |}.

Definition defaultOptions : DetectOptions :=
  mkDetectOptions None None None None None None.

(** A ten-point spectrum with one absorption band, at 1715.123 cm-1. *)
Definition wn10 : list Q :=
  [1711123 # 1000; 1712123 # 1000; 1713123 # 1000; 1714123 # 1000;
   1715123 # 1000; 1716123 # 1000; 1717123 # 1000; 1718123 # 1000;
   1719123 # 1000; 1720123 # 1000].

Definition tm10 : list Q := [100; 100; 100; 100; 10; 100; 100; 100; 100; 100].



(* ================================================================== *)
(** ** ruleMatcher.js: [annotatePeaks] *)
(* ================================================================== *)

Record Summary := mkSummary {
  totalPeaks : nat;
  annotatedPeaks : nat;
  ambiguousPeaks : nat
}.

Record AnnotateResult := mkAnnotateResult {
  ar_annotations : list Annotation;
  ar_ambiguities : list Ambiguity;
  ar_summary : Summary
}.


(** The keys of the [shapeSpecs] table. *)
Definition knownShapes : list string :=
  ["sharp"; "medium"; "broad"; "very-broad"; "medium-broad"]%string.

(** The identification a candidate carries: the key of its mode and the
    id of its subtype. *)
Definition candidateRule (c : Candidate) : string * string :=
  (ruleKey c, ruleSubtype c).

Definition entryRule (entry : string * SubType) : string * string :=
  (fst entry, or_string (st_id (snd entry)) "?").

(** What one annotation says about the peak list it was made from. *)
Definition annotates (peaks : list Peak) (rulesDb : RulesDb)
  (a : Annotation) : Prop :=
  exists peak c0 rest,
    nth_error peaks (an_peakIndex a) = Some peak /\
    matchPeakCandidates (an_peakIndex a) peak rulesDb peaks
    = Some (c0 :: rest) /\
    topFiveCandidates a = c0 :: rest /\
    primaryMatch a = c0 /\
    numCandidates a = length (c0 :: rest) /\
    confidenceRange a = map confidence (c0 :: rest) /\
    isAmbiguous a
    = match rest with
      | c1 :: _ => Qlt_bool (confidence c0 - confidence c1) (5 # 100)
      | [] => false
      end /\
    an_peakPosition a = toFixed 2 (position peak) /\
    an_peakIntensity a = toFixed 4 (intensity peak) /\
    an_peakFwhm a = toFixed 2 (fwhm peak) /\
    an_peakSNR a = toFixed 2 (snr peak).


(* ================================================================== *)
(** ** csvParser.js: what [findPeaks] works with *)
(* ================================================================== *)

(** Two indices in increasing order and at least [distance] apart. *)
Definition apart (distance : Z) (p q : nat) : Prop :=
  (p < q)%nat /\ (distance <= Z.of_nat q - Z.of_nat p)%Z.

(** The distance and the prominence [findPeaks] uses when its argument is
    [null]. *)
Definition effectiveDistance (data : list Q) (distance : option Z) : Z :=
  match distance with
  | Some d => d
  | None => let d := Z.of_nat (length data / 200) in
            if (d =? 0)%Z then 1%Z else d
  end.

Definition effectiveProminence (data : list Q) (prominence : option Q) : Q :=
  match prominence with
  | Some p => p
  | None => match Math_max data with
            | Some maxVal => maxVal * (5 # 100)
            | None => 0
            end
  end.

(** The tenth of the samples [calculateSNR] estimates the noise from. *)
Definition lowIntensityRegion (data : list Q) : list Q :=
  slice (js_sort (fun a b => a - b) data) 0
    (length (js_sort (fun a b => a - b) data) / 10).

(** The orientation test of [detectPeaks], [wn[0] > wn[wn.length - 1]],
    and the arrays it works on. *)
Definition isDescending (wavenumber : list Q) : bool :=
  match wavenumber with
  | [] => false
  | w0 :: _ => Qlt_bool (last wavenumber w0) w0
  end.

Definition ascendingAxis (wavenumber : list Q) : list Q :=
  if isDescending wavenumber then rev wavenumber else wavenumber.

(** The absorbance [detectPeaks] looks for peaks in: converted, smoothed
    and, with the linear method, without its baseline. *)
Definition processedAbsorbance (M : MathObj)
  (wavenumber transmittance : list Q) (options : DetectOptions) : list Q :=
  let tm :=
    if isDescending wavenumber then rev transmittance else transmittance in
  let absorbance :=
    savitzkyGolayFilter M (transmittanceToAbsorbance M tm)
      (or_object (smoothWindowLength options) 11%nat)
      (or_object (smoothPolyorder options) 3%nat) in
  if String.eqb (or_object (baselineMethod options) "linear"%string) "linear"
  then removeLinearBaseline absorbance else absorbance.

(** The least number of points [detectPeaks] leaves between two peaks. *)
Definition peakDistance (wavenumber : list Q) (options : DetectOptions) : Z :=
  Z.max 1 (Qfloor (Q_of_nat (length wavenumber)
                   * (or_object (distancePercent options) 2 / 100))).

(** The ten-point spectrum on an axis with 10 cm-1 between the samples,
    its band at 1715 cm-1. *)
Definition wnWide : list Q :=
  [1675; 1685; 1695; 1705; 1715; 1725; 1735; 1745; 1755; 1765].

(* ================================================================== *)
(** ** csvParser.js: validating and cleaning a spectrum *)
(* ================================================================== *)

(** [Math.min(...xs)]; [None] stands for [+Infinity], the value on an
    empty argument list. *)
Definition Math_min (xs : list Q) : option Q :=
  fold_left (fun acc x => match acc with
                          | None => Some x
                          | Some m => Some (Qmin m x)
                          end) xs None.

(** A comparator [(a, b) => key(a) - key(b)], and the order it sorts
    into. *)
Definition keyAsc {A : Type} (key : A -> Q) (a b : A) : Q := key a - key b.

Definition ascBy {A : Type} (key : A -> Q) (a b : A) : Prop :=
  key a <= key b.

(** The four errors of [validateSpectrum], in the order it tests for
    them. *)
Inductive ValidationError :=
| LengthMismatch
| TooFewPoints
| AllZero
| AllHundred.

(** [validateSpectrum]; [None] when it returns without throwing. *)
Definition validateSpectrum (wavenumber transmittance : list Q)
  : option ValidationError :=
  if negb (length wavenumber =? length transmittance)%nat
  then Some LengthMismatch
  else if (length wavenumber <? 10)%nat then Some TooFewPoints
  else if forallb (fun v => Qeq_bool v 0) transmittance then Some AllZero
  else if forallb (fun v => Qeq_bool v 100) transmittance
  then Some AllHundred
  else None.

(** A point of the spectrum; the transmittance is [undefined] when the
    transmittance array is shorter than the wavenumber array. *)
Record Pair := mkPair {
  pr_wavenumber : Q;
  pr_transmittance : option Q
}.

(** The test of the loop of [cleanSpectrum]:
    [lastWn === null || Math.abs(pair.wavenumber - lastWn) > 0.01]. *)
Definition isNewPoint (lastWn : option Q) (pair : Pair) : bool :=
  match lastWn with
  | None => true
  | Some l => Qlt_bool (1 # 100) (Qabs (pr_wavenumber pair - l))
  end.

(** The loop of [cleanSpectrum], with the pairs pushed so far; [point]
    is the [pair] of the source. *)
Fixpoint dedupLoop (pairs : list Pair) (lastWn : option Q)
  (cleaned : list Pair) : list Pair :=
  match pairs with
  | [] => cleaned
  | point :: rest =>
      if isNewPoint lastWn point
      then dedupLoop rest (Some (pr_wavenumber point)) (cleaned ++ [point])
      else dedupLoop rest lastWn cleaned
  end.

(** The pairs the loop pushes, in order. *)
Fixpoint keptFrom (pairs : list Pair) (lastWn : option Q) : list Pair :=
  match pairs with
  | [] => []
  | point :: rest =>
      if isNewPoint lastWn point
      then point :: keptFrom rest (Some (pr_wavenumber point))
      else keptFrom rest lastWn
  end.

Record CleanedSpectrum := mkCleanedSpectrum {
  cs_wavenumber : list Q;
  cs_transmittance : list (option Q);
  cs_dataPoints : nat;
  cs_wavenumberRange : Q * Q;
  (** [None] is [[NaN, NaN]], the range of an array that holds
      [undefined] *)
  cs_transmittanceRange : option (Q * Q)
}.

(** [[Math.min(...xs), Math.max(...xs)]] on a non-empty array of values
    that may be [undefined]. *)
Definition rangeOf (xs : list (option Q)) : option (Q * Q) :=
  match allSome xs with
  | None => None
  | Some ys =>
      match Math_min ys, Math_max ys with
      | Some lo, Some hi => Some (lo, hi)
      | _, _ => None
      end
  end.

(** The pairs [cleanSpectrum] builds, sorts and cleans. *)
Definition spectrumPairs (wavenumber transmittance : list Q) : list Pair :=
  mapi (fun wn i => {| pr_wavenumber := wn;
                       pr_transmittance := nth_error transmittance i |})
    wavenumber.

Definition cleanedPairs (wavenumber transmittance : list Q) : list Pair :=
  dedupLoop
    (js_sort (keyAsc pr_wavenumber) (spectrumPairs wavenumber transmittance))
    None [].

(** [cleanSpectrum]; [None] is the [TypeError] of [cleaned[0].wavenumber]
    when no pair is left. *)
Definition cleanSpectrum (wavenumber transmittance : list Q)
  : option CleanedSpectrum :=
  let cleaned := cleanedPairs wavenumber transmittance in
  match cleaned with
  | [] => None
  | first :: _ =>
      Some {| cs_wavenumber := map pr_wavenumber cleaned;
              cs_transmittance := map pr_transmittance cleaned;
              cs_dataPoints := length cleaned;
              cs_wavenumberRange :=
                (pr_wavenumber first, pr_wavenumber (last cleaned first));
              cs_transmittanceRange :=
                rangeOf (map pr_transmittance cleaned) |}
  end.

(** Two wavenumbers in increasing order and more than 0.01 apart. *)
Definition wellApart (a b : Q) : Prop := a + (1 # 100) < b.

(* ================================================================== *)
(** * Part II: the rule matcher in binary64 arithmetic *)
(* ================================================================== *)

(** The functions of [ruleMatcher.js] again, with the arithmetic of the
    source: every number read from a peak, a rule or a literal is a
    double ([dbl]), every operation rounds ([fadd], [fsub], [fmul],
    [fdiv]), and a lookup in an object literal also finds the
    properties inherited from [Object.prototype]. *)

(** The property names a plain object inherits from [Object.prototype].
    Their values are functions (for [__proto__], the prototype object):
    truthy, and not iterable. *)
Definition objectPrototypeKeys : list string :=
  ["constructor"; "__defineGetter__"; "__defineSetter__"; "hasOwnProperty";
   "__lookupGetter__"; "__lookupSetter__"; "isPrototypeOf";
   "propertyIsEnumerable"; "toString"; "valueOf"; "__proto__";
   "toLocaleString"]%string.

(** What [table[key]] finds in an object literal whose own properties
    are pairs of numbers. *)
Inductive Lookup :=
| Own (band : Q * Q)     (* an own property *)
| Inherited              (* a property of [Object.prototype] *)
| Missing.               (* [undefined] *)

Definition lookupIn (table : string -> option (Q * Q)) (key : string)
  : Lookup :=
  match table key with
  | Some (lo, hi) => Own (dbl lo, dbl hi)
  | None => if existsb (String.eqb key) objectPrototypeKeys then Inherited
            else Missing
  end.

Definition wavenumberMatch64 (peakPosition : Q) (ruleRange : Q * Q)
  (tolerance : Q) : bool :=
  let '(minWn, maxWn) := ruleRange in
  let rangeSize := fsub (dbl maxWn) (dbl minWn) in
  let tol := fmul rangeSize (dbl tolerance) in
  Qle_bool (fsub (dbl minWn) tol) (dbl peakPosition)
  && Qle_bool (dbl peakPosition) (fadd (dbl maxWn) tol).

(** [shapeMatch]; [None] is the [TypeError] of destructuring a value
    that is not iterable, raised when [ruleShape] names an inherited
    property. *)
Definition shapeMatch64 (peakFWHM : Q) (ruleShape : string)
  : option (bool * Q) :=
  match lookupIn shapeSpecs ruleShape with
  | Missing => Some (true, 0)
  | Inherited => None
  | Own (minFwhm, maxFwhm) =>
      if Qle_bool minFwhm (dbl peakFWHM) && Qle_bool (dbl peakFWHM) maxFwhm
      then Some (true, dbl (5 # 100))
      else if Qlt_bool (dbl peakFWHM) (fmul minFwhm (dbl (7 # 10)))
      then Some (false, - dbl (2 # 10))
      else if Qlt_bool (fmul maxFwhm (dbl (15 # 10))) (dbl peakFWHM)
      then Some (false, - dbl (2 # 10))
      else Some (true, 0)
  end.

(** [intensityCheck]; [None] is the [TypeError] raised when
    [ruleIntensity] names an inherited property.
    [spectrumMaxIntensity] is a [Math.max] result: [None] is
    [-Infinity]. *)
Definition intensityCheck64 (peakIntensity : Q) (ruleIntensity : string)
  (spectrumMaxIntensity : option Q) : option (bool * Q) :=
  match lookupIn thresholds ruleIntensity with
  | Missing => Some (true, 0)
  | Inherited => None
  | Own (minThresh, maxThresh) =>
      let normIntensity :=
        match spectrumMaxIntensity with
        | Some m => if Qlt_bool 0 m then fdiv (dbl peakIntensity) m else 0
        | None => 0
        end in
      if Qle_bool minThresh normIntensity && Qle_bool normIntensity maxThresh
      then Some (true, dbl (5 # 100))
      else Some (true, 0)
  end.

(** The test of the inner loop of [findSecondaryPeaks] on one peak. *)
Definition secondaryHit64 (primaryPosition maxWavenumberGap : Q)
  (specRange : Q * Q) (peak : Peak) : bool :=
  wavenumberMatch64 (position peak) specRange (1 # 10)
  && Qle_bool (Qabs (fsub (dbl (position peak)) (dbl primaryPosition)))
       (dbl maxWavenumberGap).

Fixpoint scanPeaks64 (primaryPosition maxWavenumberGap : Q)
  (specRange : Q * Q) (peaks : list Peak) (peakIdx : nat) : option nat :=
  match peaks with
  | [] => None
  | peak :: rest =>
      if secondaryHit64 primaryPosition maxWavenumberGap specRange peak
      then Some peakIdx
      else scanPeaks64 primaryPosition maxWavenumberGap specRange rest
             (S peakIdx)
  end.

Fixpoint secondaryLoop64 (primaryPosition maxWavenumberGap : Q)
  (peaks : list Peak) (secondarySpecs : list SecondarySpec)
  (matches : list (nat * SecondarySpec)) : list (nat * SecondarySpec) :=
  match secondarySpecs with
  | [] => matches
  | spec :: rest =>
      match scanPeaks64 primaryPosition maxWavenumberGap (specRangeOf spec)
              peaks 0 with
      | Some peakIdx =>
          secondaryLoop64 primaryPosition maxWavenumberGap peaks rest
            (matches ++ [(peakIdx, spec)])
      | None =>
          if specRequiredOf spec then []
          else secondaryLoop64 primaryPosition maxWavenumberGap peaks rest
                 matches
      end
  end.

(** [findSecondaryPeaks]; [None] is the [TypeError] raised when
    [peaks[primaryPeakIdx]] is [undefined]. *)
Definition findSecondaryPeaks64 (primaryPeakIdx : nat)
  (secondarySpecs : list SecondarySpec) (peaks : list Peak)
  (maxWavenumberGap : Q) : option (list (nat * SecondarySpec)) :=
  match nth_error peaks primaryPeakIdx with
  | None => None
  | Some primary =>
      Some (secondaryLoop64 (position primary) maxWavenumberGap peaks
              secondarySpecs [])
  end.

(** The adjusted confidence, before it is rounded for the record. *)
Definition adjustConfidence64 (baseConfidence shapeBonus intensityBonus : Q)
  (requiredMissing : bool) (secondaryBonus : Q) : Q :=
  let adjustedConfidence :=
    clamp01 (fadd (fadd baseConfidence shapeBonus) intensityBonus) in
  if requiredMissing then fmul adjustedConfidence (dbl (5 # 10))
  else clamp01 (fadd adjustedConfidence secondaryBonus).

(** The body of the loop over [mode.subTypes] in [matchPeakCandidates]. *)
Definition scoreSubtype64 (peakIdx : nat) (peak : Peak)
  (allPeaks : list Peak) (maxIntensity : option Q)
  (modeKey modeName : string) (subtype : SubType) : Outcome :=
  let primary := or_object (st_primaryPeak subtype) defaultPrimary in
  let primaryRange := or_object (pp_wavenumber primary) (0, 10000) in
  let primaryShape := or_string (pp_shape primary) "sharp" in
  let ruleIntensity := or_string (pp_intensity primary) "medium" in
  if negb (wavenumberMatch64 (position peak) primaryRange (5 # 100))
  then Skip
  else
    match shapeMatch64 (fwhm peak) primaryShape with
    | None => Throw
    | Some (shapeOk, shapeBonus) =>
        if negb shapeOk then Skip
        else
          match intensityCheck64 (intensity peak) ruleIntensity
                  maxIntensity with
          | None => Throw
          | Some (intensityOk, intensityBonus) =>
              let baseConfidence :=
                or_number (option_map dbl (st_confidence subtype))
                  (dbl (7 # 10)) in
              let secondaryPeaks :=
                or_object (st_secondaryPeaks subtype) [] in
              match findSecondaryPeaks64 peakIdx secondaryPeaks allPeaks
                      200 with
              | None => Throw
              | Some secondaryMatches =>
                  let requiredMissing :=
                    (0 <? length (filter specRequiredOf secondaryPeaks))%nat
                    && (length secondaryMatches =? 0)%nat in
                  let secondaryBonus :=
                    fmul (dbl (1 # 10))
                      (Q_of_nat (length secondaryMatches)) in
                  let adjustedConfidence :=
                    adjustConfidence64 baseConfidence shapeBonus
                      intensityBonus requiredMissing secondaryBonus in
                  Emit {|
                    vibrationMode := modeName;
                    source := or_string (st_source subtype) "unknown";
                    confidence := toFixed64 3 adjustedConfidence;
                    peakIndex := peakIdx;
                    ruleKey := modeKey;
                    ruleSubtype := or_string (st_id subtype) "?";
                    secondaryPeaksFound := length secondaryMatches;
                    notes := or_string (st_notes subtype) "";
                    scoring := {|
                      baseConfidence := toFixed64 3 baseConfidence;
                      shapeBonus := toFixed64 3 shapeBonus;
                      intensityBonus := toFixed64 3 intensityBonus;
                      secondaryBonus := toFixed64 3 secondaryBonus;
                      sc_wavenumberMatch := true;
                      sc_shapeMatch := shapeOk;
                      sc_intensityMatch := intensityOk;
                      sc_secondaryMatch :=
                        (0 <? length secondaryMatches)%nat
                        || (length secondaryPeaks =? 0)%nat
                    |}
                  |}
              end
          end
    end.

(** The candidates pushed while the subtypes of one mode are visited, in
    order; [None] when a turn throws. *)
Fixpoint collectSubtypes64 (peakIdx : nat) (peak : Peak)
  (allPeaks : list Peak) (maxIntensity : option Q)
  (modeKey modeName : string) (subTypes : list SubType)
  : option (list Candidate) :=
  match subTypes with
  | [] => Some []
  | subtype :: rest =>
      match scoreSubtype64 peakIdx peak allPeaks maxIntensity modeKey
              modeName subtype with
      | Throw => None
      | Skip => collectSubtypes64 peakIdx peak allPeaks maxIntensity modeKey
                  modeName rest
      | Emit c =>
          match collectSubtypes64 peakIdx peak allPeaks maxIntensity modeKey
                  modeName rest with
          | None => None
          | Some cs => Some (c :: cs)
          end
      end
  end.

Fixpoint collectModes64 (peakIdx : nat) (peak : Peak) (allPeaks : list Peak)
  (maxIntensity : option Q) (modes : list (string * Mode))
  : option (list Candidate) :=
  match modes with
  | [] => Some []
  | (modeKey, mode) :: rest =>
      let modeName := or_string (md_name mode) modeKey in
      match collectSubtypes64 peakIdx peak allPeaks maxIntensity modeKey
              modeName (or_object (md_subTypes mode) []) with
      | None => None
      | Some cs =>
          match collectModes64 peakIdx peak allPeaks maxIntensity rest with
          | None => None
          | Some cs' => Some (cs ++ cs')
          end
      end
  end.

(** [Math.max(...allPeaks.map(p => p.intensity))] *)
Definition maxIntensity64 (allPeaks : list Peak) : option Q :=
  Math_max (map (fun p => dbl (intensity p)) allPeaks).

(** The candidates of a peak in the order they are pushed. *)
Definition collectCandidates64 (peakIdx : nat) (peak : Peak)
  (rulesDb : RulesDb) (allPeaks : list Peak) : option (list Candidate) :=
  collectModes64 peakIdx peak allPeaks (maxIntensity64 allPeaks)
    (or_object (vibrationModes rulesDb) []).

(** The comparator [(a, b) => b.confidence - a.confidence]. *)
Definition byConfidenceDesc64 (a b : Candidate) : Q :=
  fsub (confidence b) (confidence a).

Definition matchPeakCandidates64 (peakIdx : nat) (peak : Peak)
  (rulesDb : RulesDb) (allPeaks : list Peak) : option (list Candidate) :=
  match collectCandidates64 peakIdx peak rulesDb allPeaks with
  | None => None
  | Some candidates =>
      Some (slice (js_sort byConfidenceDesc64 candidates) 0 5)
  end.

(** One turn of the loop of [matchAllPeaks], on the peak at [peakIdx]. *)
Definition annotatePeak64 (peakIdx : nat) (peak : Peak)
  (candidates : list Candidate) : list Annotation :=
  match candidates with
  | [] => []
  | c0 :: rest =>
      [ {|
        an_peakIndex := peakIdx;
        an_peakPosition := toFixed64 2 (dbl (position peak));
        an_peakIntensity := toFixed64 4 (dbl (intensity peak));
        an_peakFwhm := toFixed64 2 (dbl (fwhm peak));
        an_peakSNR := toFixed64 2 (dbl (snr peak));
        primaryMatch := c0;
        topFiveCandidates := candidates;
        numCandidates := length candidates;
        confidenceRange := map confidence candidates;
        isAmbiguous :=
          match rest with
          | c1 :: _ =>
              Qlt_bool (fsub (confidence c0) (confidence c1)) (dbl (5 # 100))
          | [] => false
          end
      |} ]
  end.

Fixpoint matchPeaksFrom64 (peakIdx : nat) (todo : list Peak)
  (peaks : list Peak) (rulesDb : RulesDb) : option (list Annotation) :=
  match todo with
  | [] => Some []
  | peak :: rest =>
      match matchPeakCandidates64 peakIdx peak rulesDb peaks with
      | None => None
      | Some candidates =>
          match matchPeaksFrom64 (S peakIdx) rest peaks rulesDb with
          | None => None
          | Some annotations =>
              Some (annotatePeak64 peakIdx peak candidates ++ annotations)
          end
      end
  end.

Definition matchAllPeaks64 (peaks : list Peak) (rulesDb : RulesDb)
  : option (list Annotation) :=
  matchPeaksFrom64 0 peaks peaks rulesDb.

(** One turn of the loop of [detectAmbiguities]. *)
Definition ambiguityOf64 (confidenceGapThreshold : Q)
  (annotation : Annotation) : list Ambiguity :=
  let candidates := topFiveCandidates annotation in
  match candidates with
  | c0 :: c1 :: _ =>
      let conf1 := dbl (confidence c0) in
      let conf2 := dbl (confidence c1) in
      let gap := fsub conf1 conf2 in
      if Qle_bool gap (dbl confidenceGapThreshold) then
        [ {|
          am_peakIndex := an_peakIndex annotation;
          am_peakPosition := an_peakPosition annotation;
          am_peakIntensity := an_peakIntensity annotation;
          am_peakFwhm := an_peakFwhm annotation;
          topConfidence := toFixed64 3 conf1;
          secondConfidence := toFixed64 3 conf2;
          confidenceGap := toFixed64 3 gap;
          topCandidates := slice candidates 0 2;
          allCandidates := candidates;
          note := "Multiple plausible explanations - expert review recommended"
        |} ]
      else []
  | _ => []
  end.

Definition detectAmbiguities64 (annotations : list Annotation)
  (confidenceGapThreshold : Q) : list Ambiguity :=
  flat_map (ambiguityOf64 confidenceGapThreshold) annotations.

(** [annotatePeaks]; [None] is an exception of [matchAllPeaks]. *)
Definition annotatePeaks64 (detected : list Peak) (rulesDb : RulesDb)
  (ambiguityThreshold : Q) : option AnnotateResult :=
  match matchAllPeaks64 detected rulesDb with
  | None => None
  | Some annotations =>
      let ambiguities := detectAmbiguities64 annotations ambiguityThreshold in
      Some {| ar_annotations := annotations;
              ar_ambiguities := ambiguities;
              ar_summary := {| totalPeaks := length detected;
                               annotatedPeaks := length annotations;
                               ambiguousPeaks := length ambiguities |} |}
  end.

(* ================================================================== *)
(** ** The matcher's rules in the words of its documentation, in
       binary64 arithmetic *)
(* ================================================================== *)

(** The peak a secondary spec finds, if any. *)
Definition specMatch64 (primaryPosition maxWavenumberGap : Q)
  (allPeaks : list Peak) (spec : SecondarySpec) : option nat :=
  scanPeaks64 primaryPosition maxWavenumberGap (specRangeOf spec) allPeaks 0.

(** Some required secondary spec finds no peak. *)
Definition requiredUnmatched64 (primaryPosition maxWavenumberGap : Q)
  (allPeaks : list Peak) (specs : list SecondarySpec) : bool :=
  existsb (fun spec =>
             specRequiredOf spec
             && match specMatch64 primaryPosition maxWavenumberGap allPeaks
                        spec with
                | Some _ => false
                | None => true
                end) specs.

(** The secondary specs that find a peak, each with the peak found. *)
Definition matchedSpecs64 (primaryPosition maxWavenumberGap : Q)
  (allPeaks : list Peak) (specs : list SecondarySpec)
  : list (nat * SecondarySpec) :=
  flat_map (fun spec =>
              match specMatch64 primaryPosition maxWavenumberGap allPeaks
                      spec with
              | Some peakIdx => [(peakIdx, spec)]
              | None => []
              end) specs.

(** The base confidence of a subtype: the declared one, or 0.7 when none
    is declared or the declared one is 0. *)
Definition baseOf (subtype : SubType) : Q :=
  or_number (option_map dbl (st_confidence subtype)) (dbl (7 # 10)).

(** The bonus a check grants ([0] where the check throws). *)
Definition bonusOf (checked : option (bool * Q)) : Q :=
  match checked with
  | Some (_, bonus) => bonus
  | None => 0
  end.

Definition shapeBonusOf (peak : Peak) (subtype : SubType) : Q :=
  bonusOf (shapeMatch64 (fwhm peak) (primaryShapeOf subtype)).

Definition intensityBonusOf (peak : Peak) (allPeaks : list Peak)
  (subtype : SubType) : Q :=
  bonusOf (intensityCheck64 (intensity peak) (ruleIntensityOf subtype)
             (maxIntensity64 allPeaks)).

(** The score of a subtype before the secondary peaks are looked at:
    [clamp(base + shapeBonus + intensityBonus, 0, 1)], the sum taken
    from left to right. *)
Definition primaryScore64 (peak : Peak) (allPeaks : list Peak)
  (subtype : SubType) : Q :=
  clamp01 (fadd (fadd (baseOf subtype) (shapeBonusOf peak subtype))
             (intensityBonusOf peak allPeaks subtype)).

(** The confidence as the documentation composes it: the primary score,
    halved when a required secondary spec is unmatched, and otherwise
    raised by [0.1] for each matched secondary spec and clamped again.
    [primary] is the peak at the index given to [matchPeakCandidates]. *)
Definition composedConfidence64 (peak primary : Peak) (allPeaks : list Peak)
  (subtype : SubType) : Q :=
  if requiredUnmatched64 (position primary) 200 allPeaks
       (secondarySpecsOf subtype)
  then fmul (primaryScore64 peak allPeaks subtype) (dbl (5 # 10))
  else clamp01
         (fadd (primaryScore64 peak allPeaks subtype)
            (fmul (dbl (1 # 10))
               (Q_of_nat (length (matchedSpecs64 (position primary) 200
                                    allPeaks (secondarySpecsOf subtype)))))).

(** A subtype passes the two gates of [matchPeakCandidates]: the
    wavenumber test, and a shape test that returns and says yes. *)
Definition passesGates64 (peak : Peak) (subtype : SubType) : bool :=
  wavenumberMatch64 (position peak) (primaryRangeOf subtype) (5 # 100)
  && match shapeMatch64 (fwhm peak) (primaryShapeOf subtype) with
     | Some (shapeOk, _) => shapeOk
     | None => false
     end.

(** A shape or intensity name that is not a property of
    [Object.prototype], and a database all of whose names are such. *)
Definition plainName (name : string) : bool :=
  negb (existsb (String.eqb name) objectPrototypeKeys).

Definition plainNames (rulesDb : RulesDb) : bool :=
  forallb (fun entry : string * SubType =>
             plainName (primaryShapeOf (snd entry))
             && plainName (ruleIntensityOf (snd entry)))
    (subtypesOf rulesDb).

(** The subtypes of a database that pass the gates for a peak, in
    iteration order. *)
Definition passingSubtypes (peak : Peak) (rulesDb : RulesDb)
  : list (string * SubType) :=
  filter (fun entry => passesGates64 peak (snd entry)) (subtypesOf rulesDb).

(** The gap between the two best candidates of an annotation as
    [detectAmbiguities] computes it ([0] when there are fewer than two),
    and its ambiguity rule. *)
Definition topGap64 (annotation : Annotation) : Q :=
  fsub (dbl (confidenceAt (topFiveCandidates annotation) 0))
       (dbl (confidenceAt (topFiveCandidates annotation) 1)).

Definition ambiguousAt64 (confidenceGapThreshold : Q)
  (annotation : Annotation) : bool :=
  (2 <=? length (topFiveCandidates annotation))%nat
  && Qle_bool (topGap64 annotation) (dbl confidenceGapThreshold).
(* ================================================================== *)
(** ** Facts about the primitives *)
(* ================================================================== *)

Lemma Qle_bool_false (a b : Q) : Qle_bool a b = false -> b < a.
Proof.
  intros H. apply Qnot_le_lt. intros Hle.
  apply Qle_bool_iff in Hle. congruence.
Qed.

Lemma Qlt_bool_iff (a b : Q) : Qlt_bool a b = true <-> a < b.
Proof.
  unfold Qlt_bool. rewrite negb_true_iff. split.
  - apply Qle_bool_false.
  - intros H. destruct (Qle_bool b a) eqn:E; [|reflexivity].
    apply Qle_bool_iff in E. lra.
Qed.

Lemma Qlt_bool_false (a b : Q) : Qlt_bool a b = false <-> b <= a.
Proof.
  unfold Qlt_bool. rewrite negb_false_iff. apply Qle_bool_iff.
Qed.




(** A non-negative multiple of [1/1000] is left alone. *)
Lemma toFixed3_grid (n : Z) : (0 <= n)%Z -> toFixed 3 (n # 1000) = (n # 1000).
Proof.
  intros Hn. unfold toFixed.
  assert (H0 : 0 <= n # 1000) by (unfold Qle; simpl; lia).
  assert (E : Qle_bool 0 (n # 1000) = true) by (apply Qle_bool_iff; exact H0).
  rewrite E. rewrite (Qabs_pos _ H0).
  change (Z.to_pos (10 ^ Z.of_nat 3)) with 1000%positive.
  f_equal. unfold Qfloor, Qmult, Qplus, inject_Z. simpl.
  symmetry. apply Z.div_unique with (r := 1000%Z); lia.
Qed.


(* ================================================================== *)
(** ** Facts about [Array.prototype.sort] *)
(* ================================================================== *)

Section SortFacts.

Context {A : Type}.
Variable cmp : A -> A -> Q.

Lemma sort_insert_perm (x : A) (l : list A) :
  Permutation (x :: l) (sort_insert cmp x l).
Proof.
  induction l as [|y l IH]; simpl.
  - apply Permutation_refl.
  - destruct (Qle_bool (cmp x y) 0).
    + apply Permutation_refl.
    + eapply perm_trans; [apply perm_swap|]. apply perm_skip. exact IH.
Qed.

Lemma js_sort_perm (l : list A) : Permutation l (js_sort cmp l).
Proof.
  induction l as [|x l IH]; simpl.
  - apply perm_nil.
  - eapply perm_trans; [|apply sort_insert_perm]. apply perm_skip. exact IH.
Qed.

Lemma js_sort_In (x : A) (l : list A) : In x (js_sort cmp l) <-> In x l.
Proof.
  split; apply Permutation_in.
  - apply Permutation_sym, js_sort_perm.
  - apply js_sort_perm.
Qed.

Lemma js_sort_length (l : list A) : length (js_sort cmp l) = length l.
Proof. symmetry. apply Permutation_length, js_sort_perm. Qed.

End SortFacts.

(** Sorting with a comparator [(a, b) => key(b) - key(a)]. *)
Section SortByKeyDescending.

Context {A : Type}.
Variable key : A -> Q.


Lemma sort_insert_desc (x : A) (l : list A) :
  StronglySorted (descBy key) l ->
  StronglySorted (descBy key) (sort_insert (keyDesc key) x l).
Proof.
  induction l as [|y l IH]; intros Hs; simpl.
  - constructor; [constructor|constructor].
  - inversion Hs as [|y' l' Hl Hy]; subst.
    destruct (Qle_bool ((keyDesc key) x y) 0) eqn:E.
    + apply Qle_bool_iff in E. unfold keyDesc in E.
      constructor; [exact Hs|].
      constructor; [unfold descBy; lra|].
      eapply Forall_impl; [|exact Hy].
      intros z Hz. unfold descBy in *. lra.
    + apply Qle_bool_false in E. unfold keyDesc in E.
      constructor; [apply IH; exact Hl|].
      rewrite Forall_forall. intros z Hz.
      apply (Permutation_in _
               (Permutation_sym (sort_insert_perm (keyDesc key) x l)))
        in Hz.
      destruct Hz as [<-|Hz].
      * unfold descBy. lra.
      * rewrite Forall_forall in Hy. apply Hy. exact Hz.
Qed.

Lemma js_sort_desc (l : list A) :
  StronglySorted (descBy key) (js_sort (keyDesc key) l).
Proof.
  induction l as [|x l IH]; simpl.
  - constructor.
  - apply sort_insert_desc. exact IH.
Qed.



End SortByKeyDescending.



Lemma slice_from_0 {A : Type} (l : list A) (n : nat) : slice l 0 n = firstn n l.
Proof. unfold slice. rewrite Nat.sub_0_r. reflexivity. Qed.

(* ================================================================== *)
(** ** The secondary-peak search *)
(* ================================================================== *)

Section SecondarySearch.

Variables (pos gap : Q) (allPeaks : list Peak).

(** The loop returns nothing when a required spec finds no peak, and the
    specs that found one, in order, otherwise. *)
Lemma secondaryLoop_spec (specs : list SecondarySpec)
  (acc : list (nat * SecondarySpec)) :
  secondaryLoop pos gap allPeaks specs acc =
  if requiredUnmatched pos gap allPeaks specs then []
  else acc ++ matchedSpecs pos gap allPeaks specs.
Proof.
  revert acc. induction specs as [|spec specs IH]; intros acc; simpl.
  - rewrite app_nil_r. reflexivity.
  - unfold specMatch.
    destruct (scanPeaks pos gap (specRangeOf spec) allPeaks 0) as [k|] eqn:E.
    + rewrite andb_false_r. simpl. rewrite IH.
      destruct (requiredUnmatched pos gap allPeaks specs); [reflexivity|].
      rewrite <- app_assoc. reflexivity.
    + rewrite andb_true_r. destruct (specRequiredOf spec); simpl.
      * reflexivity.
      * apply IH.
Qed.

Lemma matchedSpecs_In (spec : SecondarySpec) (k : nat)
  (specs : list SecondarySpec) :
  In spec specs ->
  specMatch pos gap allPeaks spec = Some k ->
  In (k, spec) (matchedSpecs pos gap allPeaks specs).
Proof.
  intros Hin Hm. unfold matchedSpecs. apply in_flat_map.
  exists spec. split; [exact Hin|]. rewrite Hm. left. reflexivity.
Qed.

(** The test [matchPeakCandidates] makes for the missing-requirement
    penalty says exactly that a required spec finds no peak. *)
Lemma requiredMissing_spec (specs : list SecondarySpec) :
  (0 <? length (filter specRequiredOf specs))%nat
  && (length (if requiredUnmatched pos gap allPeaks specs then []
              else matchedSpecs pos gap allPeaks specs) =? 0)%nat
  = requiredUnmatched pos gap allPeaks specs.
Proof.
  destruct (requiredUnmatched pos gap allPeaks specs) eqn:E.
  - simpl. rewrite andb_true_r. apply Nat.ltb_lt.
    unfold requiredUnmatched in E. apply existsb_exists in E.
    destruct E as [spec [Hin Hs]]. apply andb_true_iff in Hs.
    destruct Hs as [Hr _].
    assert (Hf : In spec (filter specRequiredOf specs)).
    { apply filter_In. split; assumption. }
    destruct (filter specRequiredOf specs); [contradiction|simpl; lia].
  - destruct (filter specRequiredOf specs) as [|spec rest] eqn:F;
      [reflexivity|].
    assert (Hf : In spec (filter specRequiredOf specs))
      by (rewrite F; left; reflexivity).
    apply filter_In in Hf. destruct Hf as [Hin Hr].
    destruct (specMatch pos gap allPeaks spec) as [k|] eqn:Hm.
    + pose proof (matchedSpecs_In spec k specs Hin Hm) as Hk.
      destruct (matchedSpecs pos gap allPeaks specs);
        [contradiction|reflexivity].
    + exfalso.
      assert (Hu : requiredUnmatched pos gap allPeaks specs = true).
      { unfold requiredUnmatched. apply existsb_exists. exists spec.
        split; [exact Hin|]. rewrite Hr, Hm. reflexivity. }
      congruence.
Qed.

End SecondarySearch.

(* ================================================================== *)
(** ** Scoring one subtype *)
(* ================================================================== *)

Lemma findSecondaryPeaks_spec (peakIdx : nat) (specs : list SecondarySpec)
  (allPeaks : list Peak) (gap : Q) (primary : Peak) :
  nth_error allPeaks peakIdx = Some primary ->
  findSecondaryPeaks peakIdx specs allPeaks gap =
  Some (if requiredUnmatched (position primary) gap allPeaks specs then []
        else matchedSpecs (position primary) gap allPeaks specs).
Proof.
  intros H. unfold findSecondaryPeaks. rewrite H.
  rewrite secondaryLoop_spec. reflexivity.
Qed.

(** A turn of the loop skips the subtypes that fail a gate and emits, for
    the others, a candidate whose confidence is the composed confidence
    rounded to three decimals. *)
Lemma scoreSubtype_spec (peakIdx : nat) (peak primary : Peak)
  (allPeaks : list Peak) (modeKey modeName : string) (subtype : SubType) :
  nth_error allPeaks peakIdx = Some primary ->
  (passesGates peak subtype = false /\
   scoreSubtype peakIdx peak allPeaks (Math_max (map intensity allPeaks))
     modeKey modeName subtype = Skip)
  \/
  (passesGates peak subtype = true /\
   exists c,
     scoreSubtype peakIdx peak allPeaks (Math_max (map intensity allPeaks))
       modeKey modeName subtype = Emit c /\
     confidence c
     = toFixed 3 (composedConfidence peak primary allPeaks subtype) /\
     ruleKey c = modeKey /\
     secondaryPeaksFound c = secondaryCount primary allPeaks subtype /\
     baseConfidence (scoring c)
     = toFixed 3 (or_number (st_confidence subtype) (7 # 10))).
Proof.
  intros Hnth.
  unfold scoreSubtype, passesGates, primaryRangeOf, primaryShapeOf.
  destruct (wavenumberMatch (position peak) _ (5 # 100)); simpl;
    [|left; split; reflexivity].
  destruct (shapeMatch (fwhm peak) _) as [shapeOk sb] eqn:Es.
  destruct shapeOk; simpl; [|left; split; reflexivity].
  destruct (intensityCheck (intensity peak) _ _) as [intensityOk ib] eqn:Ei.
  rewrite (findSecondaryPeaks_spec _ _ _ _ _ Hnth).
  right. split; [reflexivity|].
  eexists. split; [reflexivity|]. simpl.
  split; [|split; [reflexivity|split; reflexivity]].
  f_equal. unfold composedConfidence, adjustConfidence, primaryScore.
  unfold primaryShapeOf, ruleIntensityOf, secondarySpecsOf.
  rewrite Es, Ei. simpl snd.
  rewrite requiredMissing_spec.
  destruct (requiredUnmatched _ _ _ _); reflexivity.
Qed.



(* ================================================================== *)
(** ** Collecting the candidates of a peak *)
(* ================================================================== *)

Section Collect.

Variables (peakIdx : nat) (peak primary : Peak) (allPeaks : list Peak).
Hypothesis Hprimary : nth_error allPeaks peakIdx = Some primary.

Lemma scoreSubtype_no_throw (modeKey modeName : string) (subtype : SubType) :
  scoreSubtype peakIdx peak allPeaks (Math_max (map intensity allPeaks))
    modeKey modeName subtype <> Throw.
Proof.
  destruct (scoreSubtype_spec peakIdx peak primary allPeaks modeKey modeName
              subtype Hprimary) as [[_ H]|[_ [c [H _]]]];
    rewrite H; discriminate.
Qed.

Lemma collectSubtypes_spec (modeKey modeName : string)
  (subTypes : list SubType) :
  collectSubtypes peakIdx peak allPeaks (Math_max (map intensity allPeaks))
    modeKey modeName subTypes
  = Some (flat_map
            (fun subtype =>
               emitOf (scoreSubtype peakIdx peak allPeaks
                         (Math_max (map intensity allPeaks)) modeKey modeName
                         subtype)) subTypes).
Proof.
  induction subTypes as [|subtype rest IH]; [reflexivity|].
  simpl. rewrite IH.
  pose proof (scoreSubtype_no_throw modeKey modeName subtype) as Hn.
  destruct (scoreSubtype _ _ _ _ _ _ subtype); [reflexivity|reflexivity|].
  contradiction.
Qed.

Lemma collectModes_spec (modes : list (string * Mode)) :
  collectModes peakIdx peak allPeaks (Math_max (map intensity allPeaks)) modes
  = Some (flat_map
            (fun entry : string * Mode =>
               flat_map
                 (fun subtype =>
                    emitOf (scoreSubtype peakIdx peak allPeaks
                              (Math_max (map intensity allPeaks)) (fst entry)
                              (or_string (md_name (snd entry)) (fst entry))
                              subtype))
                 (or_object (md_subTypes (snd entry)) [])) modes).
Proof.
  induction modes as [|[modeKey mode] rest IH]; [reflexivity|].
  simpl. rewrite collectSubtypes_spec, IH. reflexivity.
Qed.


End Collect.

(* ================================================================== *)
(** ** The confidence of a candidate *)
(* ================================================================== *)



(** Scenario C of the specification: range [1700,1750], shape "sharp",
    nothing else declared; a lone peak at 1715 of width 30 gets
    0.7 + 0.05. *)
Example matchPeakCandidates_scenario_C :
  option_map (map confidence)
    (matchPeakCandidates 0 carbonylPeak
       (dbOf [mkSubType None None None
                (Some (mkPrimarySpec (Some (1700, 1750)) (Some "sharp"%string)
                         None)) None None]) [carbonylPeak])
  = Some [750 # 1000].
Proof. vm_compute. reflexivity. Qed.


(* ================================================================== *)
(** ** Ranking the candidates *)
(* ================================================================== *)




(** In the example database the candidate of subtype "b" scores 0.95 and
    the five others tie at 0.9: "b" comes first, the ties keep the order
    of the database, and the last one, "f", is left out. *)
Example matchPeakCandidates_tie_example :
  option_map (map ruleSubtype)
    (collectCandidates 0 carbonylPeak tiedDb [carbonylPeak])
  = Some ["a"; "b"; "c"; "d"; "e"; "f"]%string /\
  option_map (map ruleSubtype)
    (matchPeakCandidates 0 carbonylPeak tiedDb [carbonylPeak])
  = Some ["b"; "a"; "c"; "d"; "e"]%string.
Proof. split; vm_compute; reflexivity. Qed.

(* ================================================================== *)
(** ** The default base confidence *)
(* ================================================================== *)



Lemma scoreSubtype_undeclareZero (peakIdx : nat) (peak : Peak)
  (allPeaks : list Peak) (maxIntensity : option Q) (modeKey modeName : string)
  (subtype : SubType) :
  scoreSubtype peakIdx peak allPeaks maxIntensity modeKey modeName
    (undeclareZero subtype)
  = scoreSubtype peakIdx peak allPeaks maxIntensity modeKey modeName subtype.
Proof.
  unfold undeclareZero.
  destruct (st_confidence subtype) as [q|] eqn:Eq; [|reflexivity].
  destruct (Qeq_bool q 0) eqn:Ez; [|reflexivity].
  unfold scoreSubtype. simpl. rewrite Eq. simpl. rewrite Ez. reflexivity.
Qed.

Lemma collectSubtypes_map (f : SubType -> SubType) (peakIdx : nat)
  (peak : Peak) (allPeaks : list Peak) (maxIntensity : option Q)
  (modeKey modeName : string) (subTypes : list SubType) :
  (forall s,
      scoreSubtype peakIdx peak allPeaks maxIntensity modeKey modeName (f s)
      = scoreSubtype peakIdx peak allPeaks maxIntensity modeKey modeName s) ->
  collectSubtypes peakIdx peak allPeaks maxIntensity modeKey modeName
    (map f subTypes)
  = collectSubtypes peakIdx peak allPeaks maxIntensity modeKey modeName
      subTypes.
Proof.
  intros Hf. induction subTypes as [|s rest IH]; [reflexivity|].
  simpl. rewrite Hf, IH. reflexivity.
Qed.

(** Over a whole database: declaring a base confidence of 0 is the same
    as declaring none. *)
Lemma matchPeakCandidates_undeclareZero (peakIdx : nat) (peak : Peak)
  (rulesDb : RulesDb) (allPeaks : list Peak) :
  matchPeakCandidates peakIdx peak (mapSubTypes undeclareZero rulesDb) allPeaks
  = matchPeakCandidates peakIdx peak rulesDb allPeaks.
Proof.
  unfold matchPeakCandidates, collectCandidates.
  assert (E : collectModes peakIdx peak allPeaks
                (Math_max (map intensity allPeaks))
                (or_object (vibrationModes (mapSubTypes undeclareZero rulesDb))
                   [])
              = collectModes peakIdx peak allPeaks
                  (Math_max (map intensity allPeaks))
                  (or_object (vibrationModes rulesDb) [])).
  { destruct rulesDb as [[modes|]]; [|reflexivity]. simpl.
    induction modes as [|[modeKey mode] rest IH]; [reflexivity|].
    simpl. rewrite IH.
    destruct mode as [name [subTypes|]]; simpl; [|reflexivity].
    rewrite collectSubtypes_map; [reflexivity|].
    intros s. apply scoreSubtype_undeclareZero. }
  rewrite E. reflexivity.
Qed.

(** With a declared base of 0 the example subtype gets 0.7 + 0.05 + 0.05. *)
Example zero_confidence_example :
  exists c,
    matchPeakCandidates 0 carbonylPeak
      (dbOf [carbonylSubtype "a" (Some 0) None]) [carbonylPeak] = Some [c] /\
    confidence c == 8 # 10.
Proof. eexists. split; vm_compute; reflexivity. Qed.

(* ================================================================== *)
(** ** The missing-requirement penalty *)
(* ================================================================== *)

Lemma Qle_bool_comp (a x y : Q) : x == y -> Qle_bool a x = Qle_bool a y.
Proof.
  intros E. destruct (Qle_bool a x) eqn:Hx, (Qle_bool a y) eqn:Hy;
    try reflexivity.
  - apply Qle_bool_iff in Hx. apply Qle_bool_false in Hy. lra.
  - apply Qle_bool_iff in Hy. apply Qle_bool_false in Hx. lra.
Qed.

Lemma toFixed_comp (digits : nat) (x y : Q) :
  x == y -> toFixed digits x = toFixed digits y.
Proof.
  intros E. unfold toFixed. rewrite (Qle_bool_comp 0 x y E).
  set (scale := inject_Z (Z.pos (Z.to_pos (10 ^ Z.of_nat digits)))).
  assert (F : Qfloor (Qabs x * scale + (1 # 2))
              = Qfloor (Qabs y * scale + (1 # 2))).
  { apply Qfloor_comp. rewrite E. reflexivity. }
  rewrite F. reflexivity.
Qed.




(** Scenario E of the specification: 0.85 + 0.05 + 0.05 = 0.95 without
    the requirement, 0.475 with the requirement unmatched. *)
Example required_missing_scenario_E :
  option_map (map confidence)
    (matchPeakCandidates 0 carbonylPeak
       (dbOf [carbonylSubtype "a" (Some (85 # 100)) (Some [farSpec true])])
       [carbonylPeak]) = Some [475 # 1000] /\
  option_map (map confidence)
    (matchPeakCandidates 0 carbonylPeak
       (dbOf [carbonylSubtype "a" (Some (85 # 100)) None])
       [carbonylPeak]) = Some [950 # 1000].
Proof. split; vm_compute; reflexivity. Qed.


(* ================================================================== *)
(** ** The primary peak as its own secondary peak *)
(* ================================================================== *)

Lemma scanPeaks_finds (pos gap : Q) (range : Q * Q) (allPeaks : list Peak)
  (start i : nat) (p : Peak) :
  nth_error allPeaks i = Some p ->
  secondaryHit pos gap range p = true ->
  exists k, scanPeaks pos gap range allPeaks start = Some k /\
            (start <= k <= start + i)%nat.
Proof.
  revert start i. induction allPeaks as [|q rest IH]; intros start i Hnth Hhit.
  - destruct i; discriminate.
  - simpl. destruct (secondaryHit pos gap range q) eqn:E.
    + exists start. split; [reflexivity|lia].
    + destruct i as [|i]; simpl in Hnth.
      * injection Hnth as ->. congruence.
      * destruct (IH (S start) i Hnth Hhit) as [k [Hk Hb]].
        exists k. split; [exact Hk|lia].
Qed.

Lemma requiredUnmatched_elim (pos gap : Q) (allPeaks : list Peak)
  (specs : list SecondarySpec) :
  requiredUnmatched pos gap allPeaks specs = true ->
  exists other,
    In other specs /\ specRequiredOf other = true /\
    specMatch pos gap allPeaks other = None.
Proof.
  intros H. unfold requiredUnmatched in H. apply existsb_exists in H.
  destruct H as [other [Hin Hb]]. apply andb_true_iff in Hb.
  destruct Hb as [Hr Hm]. exists other. split; [exact Hin|].
  split; [exact Hr|].
  destruct (specMatch pos gap allPeaks other); [discriminate|reflexivity].
Qed.

(** C9 (as amended).  A secondary spec whose 10%-tolerance range contains
    the position of the primary peak always finds a peak, the primary
    peak or one scanned before it.  It is in the list of matches, and so
    counted, whenever no required spec of the subtype is unmatched; the
    list of matches is empty only when some other spec of the subtype,
    a required one, finds no peak. *)
Theorem secondary_search_includes_primary (peakIdx : nat)
  (allPeaks : list Peak) (primary : Peak) (specs : list SecondarySpec)
  (spec : SecondarySpec) :
  nth_error allPeaks peakIdx = Some primary ->
  In spec specs ->
  wavenumberMatch (position primary) (specRangeOf spec) (1 # 10) = true ->
  exists k matches,
    specMatch (position primary) 200 allPeaks spec = Some k /\
    (k <= peakIdx)%nat /\
    findSecondaryPeaks peakIdx specs allPeaks 200 = Some matches /\
    (requiredUnmatched (position primary) 200 allPeaks specs = false ->
     In (k, spec) matches /\ (1 <= length matches)%nat) /\
    (requiredUnmatched (position primary) 200 allPeaks specs = true ->
     matches = [] /\
     exists other,
       In other specs /\ other <> spec /\ specRequiredOf other = true /\
       specMatch (position primary) 200 allPeaks other = None).
Proof.
  intros Hnth Hin Hrange.
  assert (Hhit : secondaryHit (position primary) 200 (specRangeOf spec)
                   primary = true).
  { unfold secondaryHit. rewrite Hrange. cbn [andb]. apply Qle_bool_iff.
    apply (proj2 (Qabs_Qle_condition _ _)). split; lra. }
  destruct (scanPeaks_finds (position primary) 200 (specRangeOf spec)
              allPeaks 0 peakIdx primary Hnth Hhit) as [k [Hk Hb]].
  exists k. eexists.
  split; [exact Hk|]. split; [lia|].
  split; [apply (findSecondaryPeaks_spec _ _ _ _ _ Hnth)|].
  split.
  - intros Hu. rewrite Hu.
    pose proof (matchedSpecs_In (position primary) 200 allPeaks spec k specs
                  Hin Hk) as Hm.
    split; [exact Hm|].
    destruct (matchedSpecs (position primary) 200 allPeaks specs);
      [contradiction|simpl; lia].
  - intros Hu. rewrite Hu. split; [reflexivity|].
    destruct (requiredUnmatched_elim _ _ _ _ Hu) as [other [Ho [Hr Hm]]].
    exists other. split; [exact Ho|]. split; [|split; assumption].
    intros ->. unfold specMatch in Hm. congruence.
Qed.

Lemma secondary_search_includes_primary_witness :
  exists k matches,
    specMatch (position carbonylPeak) 200 [carbonylPeak] (nearSpec true)
    = Some k /\
    (k <= 0)%nat /\
    findSecondaryPeaks 0 [nearSpec true; farSpec false] [carbonylPeak] 200
    = Some matches /\
    (requiredUnmatched (position carbonylPeak) 200 [carbonylPeak]
       [nearSpec true; farSpec false] = false ->
     In (k, nearSpec true) matches /\ (1 <= length matches)%nat) /\
    (requiredUnmatched (position carbonylPeak) 200 [carbonylPeak]
       [nearSpec true; farSpec false] = true ->
     matches = [] /\
     exists other,
       In other [nearSpec true; farSpec false] /\ other <> nearSpec true /\
       specRequiredOf other = true /\
       specMatch (position carbonylPeak) 200 [carbonylPeak] other = None).
Proof.
  apply (secondary_search_includes_primary 0 [carbonylPeak] carbonylPeak
           [nearSpec true; farSpec false] (nearSpec true)).
  - reflexivity.
  - left. reflexivity.
  - reflexivity.
Defined.

(** C9 as first stated fails: next to a required spec that no peak
    satisfies, the spec that the primary peak satisfies is not counted;
    the count is 0 and the confidence is halved (0.95 becomes 0.475). *)
Lemma self_match_not_always_counted :
  wavenumberMatch (position carbonylPeak) (specRangeOf (nearSpec true))
    (1 # 10) = true /\
  findSecondaryPeaks 0 [nearSpec true; farSpec true] [carbonylPeak] 200
  = Some [] /\
  exists c,
    matchPeakCandidates 0 carbonylPeak
      (dbOf [carbonylSubtype "a" (Some (85 # 100))
               (Some [nearSpec true; farSpec true])]) [carbonylPeak]
    = Some [c] /\
    secondaryPeaksFound c = 0%nat /\
    confidence c == 475 # 1000.
Proof.
  split; [reflexivity|]. split; [reflexivity|].
  eexists. split; [vm_compute; reflexivity|].
  split; vm_compute; reflexivity.
Qed.

(* ================================================================== *)
(** ** Ambiguity detection *)
(* ================================================================== *)

Lemma toFixed3_grid_any (n : Z) : toFixed 3 (n # 1000) = (n # 1000).
Proof.
  destruct (Z_le_gt_dec 0 n) as [Hn|Hn]; [apply toFixed3_grid; exact Hn|].
  unfold toFixed.
  assert (E : Qle_bool 0 (n # 1000) = false).
  { destruct (Qle_bool 0 (n # 1000)) eqn:E; [|reflexivity].
    apply Qle_bool_iff in E. unfold Qle in E. cbn [Qnum Qden] in E. lia. }
  rewrite E.
  change (Z.to_pos (10 ^ Z.of_nat 3)) with 1000%positive.
  assert (F : Qfloor (Qabs (n # 1000) * inject_Z 1000 + (1 # 2)) = (- n)%Z).
  { unfold Qabs, Qfloor, Qmult, Qplus, inject_Z. cbn [Qnum Qden].
    symmetry. apply Z.div_unique with (r := 1000%Z); lia. }
  rewrite F. rewrite Z.opp_involutive. reflexivity.
Qed.




(** Scenario D of the specification. *)
Example detectAmbiguities_scenario_D :
  length (detectAmbiguities
            [annotationWith [candidateWith "a" (70 # 100);
                             candidateWith "b" (68 # 100)]] (5 # 100)) = 1%nat
  /\ detectAmbiguities
       [annotationWith [candidateWith "a" (70 # 100);
                        candidateWith "b" (60 # 100)]] (5 # 100) = [].
Proof. split; reflexivity. Qed.


(* ================================================================== *)
(** ** Facts about indexed maps *)
(* ================================================================== *)

Lemma mapi_from_length {A B : Type} (f : A -> nat -> B) (i : nat)
  (xs : list A) : length (mapi_from f i xs) = length xs.
Proof.
  revert i. induction xs as [|x xs IH]; intros i; simpl;
    [reflexivity|rewrite IH; reflexivity].
Qed.

Lemma mapi_length {A B : Type} (f : A -> nat -> B) (xs : list A) :
  length (mapi f xs) = length xs.
Proof. apply mapi_from_length. Qed.



Lemma at_index_nth_error (xs : list Q) (k : nat) (x : Q) :
  nth_error xs k = Some x -> at_index xs k = x.
Proof. intros H. unfold at_index. apply nth_error_nth. exact H. Qed.



(* ================================================================== *)
(** ** Baseline removal *)
(* ================================================================== *)

Lemma removeLinearBaseline_length (data : list Q) :
  length (removeLinearBaseline data) = length data.
Proof.
  unfold removeLinearBaseline. destruct (length data <? 2)%nat;
    [reflexivity|apply mapi_length].
Qed.



(* ================================================================== *)
(** ** Smoothing *)
(* ================================================================== *)

Section Smoothing.

Variable M : MathObj.






Lemma savitzkyGolayFilter_length (data : list Q)
  (windowLength polyorder : nat) :
  length (savitzkyGolayFilter M data windowLength polyorder) = length data.
Proof.
  unfold savitzkyGolayFilter.
  match goal with |- context [if (length data <? ?w)%nat then _ else _] =>
    destruct (length data <? w)%nat end.
  - reflexivity.
  - rewrite length_map, length_seq. reflexivity.
Qed.


End Smoothing.




(** With the stand-in exponential, on a signal longer than the window. *)
Example savitzkyGolayFilter_constant_example :
  map Qred (savitzkyGolayFilter MathQ (repeat (3 # 7) 14) 11 3)
  = repeat (3 # 7) 14.
Proof. vm_compute. reflexivity. Qed.

(* ================================================================== *)
(** ** The loops of [findPeaks] *)
(* ================================================================== *)

Lemma localPeaks_in_range (data : list Q) (height prominence : Q) :
  Forall (fun i => (i < length data)%nat) (localPeaks data height prominence).
Proof.
  unfold localPeaks. rewrite Forall_forall. intros i Hi.
  apply filter_In in Hi. destruct Hi as [Hi _]. apply in_seq in Hi. lia.
Qed.

Lemma distanceFilter_Forall (P : nat -> Prop) (distance : Z)
  (candidates : list nat) (heights : list Q) :
  Forall P candidates ->
  forall (filtered : list nat) (filteredHeights : list Q),
    Forall P filtered ->
    Forall P (fst (distanceFilter distance candidates heights filtered
                     filteredHeights)).
Proof.
  intros Hc. revert heights.
  induction Hc as [|p candidates Hp _ IH]; intros heights filtered fh Hf.
  - simpl. exact Hf.
  - simpl. destruct heights as [|h heights]; [exact Hf|].
    destruct (forallb _ filtered).
    + apply IH. apply Forall_app. split; [exact Hf|].
      constructor; [exact Hp|constructor].
    + apply IH. exact Hf.
Qed.

Lemma findPeaks_in_range (data : list Q) (height : Q) (prominence : option Q)
  (distance : option Z) :
  Forall (fun i => (i < length data)%nat)
    (peaks (findPeaks data height prominence distance)).
Proof.
  unfold findPeaks.
  match goal with
  | |- context [distanceFilter ?d ?ps ?hs [] []] =>
      pose proof (distanceFilter_Forall (fun i => (i < length data)%nat) d ps
                    hs (localPeaks_in_range data height _) [] []
                    (Forall_nil _)) as H;
      destruct (distanceFilter d ps hs [] []) as [filtered filteredHeights]
  end.
  simpl. exact H.
Qed.

(* ================================================================== *)
(** ** Prominence *)
(* ================================================================== *)

(** The window [findPeaks] scans on the left is the one of the
    specification. *)
Lemma minLeft_is_spec (data : list Q) (i : nat) :
  minLeft data i = specMinLeft data i.
Proof. reflexivity. Qed.

(** On the right [findPeaks] stops one sample short: it scans
    [data[i+1..i+49]], 49 samples. *)
Lemma minRight_window (data : list Q) (i : nat) :
  (i + 50 <= length data)%nat ->
  minRight data i
  = fold_left (fun m j => Qmin m (at_index data j)) (seq (i + 1) 49)
      (at_index data i).
Proof.
  intros H. unfold minRight, minOver.
  replace (Nat.min (length data) (i + 50) - (i + 1))%nat with 49%nat by lia.
  reflexivity.
Qed.

Lemma specMinRight_window (data : list Q) (i : nat) :
  (i + 51 <= length data)%nat ->
  specMinRight data i
  = fold_left (fun m j => Qmin m (at_index data j)) (seq (i + 1) 50)
      (at_index data i).
Proof.
  intros H. unfold specMinRight, minOver.
  replace (Nat.min (length data) (i + 51) - (i + 1))%nat with 50%nat by lia.
  reflexivity.
Qed.

Lemma fold_min_le_init (f : nat -> Q) (l : list nat) (a : Q) :
  fold_left (fun m j => Qmin m (f j)) l a <= a.
Proof.
  revert a. induction l as [|j l IH]; intros a; simpl.
  - lra.
  - eapply Qle_trans; [apply IH|]. apply Q.le_min_l.
Qed.

(** The right window of the specification contains the one [findPeaks]
    scans, so the prominence [findPeaks] computes never exceeds the one
    of the specification. *)
Lemma specMinRight_le (data : list Q) (i : nat) :
  specMinRight data i <= minRight data i.
Proof.
  unfold specMinRight, minRight, minOver.
  destruct (Nat.le_gt_cases (length data) (i + 50)) as [H|H].
  - replace (Nat.min (length data) (i + 51)) with (length data) by lia.
    replace (Nat.min (length data) (i + 50)) with (length data) by lia.
    apply Qle_refl.
  - replace (Nat.min (length data) (i + 51) - (i + 1))%nat
      with (S (Nat.min (length data) (i + 50) - (i + 1))) by lia.
    rewrite seq_S, fold_left_app.
    set (m := fold_left _ (seq (i + 1) _) _).
    cbn [fold_left]. apply Q.le_min_l.
Qed.

Lemma peakProminence_le_spec (data : list Q) (i : nat) :
  peakProminence data i <= specProminence data i.
Proof.
  unfold peakProminence, specProminence.
  change (specMinLeft data i) with (minLeft data i).
  pose proof (specMinRight_le data i) as H.
  apply Q.min_glb.
  - apply Q.le_min_l.
  - eapply Qle_trans; [apply Q.le_min_r|]. lra.
Qed.

(** What the first loop of [findPeaks] keeps: the strict local maxima
    that reach the height and whose prominence, as [findPeaks] computes
    it, reaches the threshold. *)
Lemma localPeaks_spec (data : list Q) (height threshold : Q) (i : nat) :
  In i (localPeaks data height threshold) <->
  (1 <= i /\ i + 1 < length data)%nat /\
  at_index data (i - 1) < at_index data i /\
  at_index data (i + 1) < at_index data i /\
  height <= at_index data i /\
  threshold
  <= Qmin (at_index data i - minLeft data i)
          (at_index data i - minRight data i).
Proof.
  unfold localPeaks. rewrite filter_In, in_seq. unfold isLocalPeak.
  rewrite !andb_true_iff, !Qlt_bool_iff, !Qle_bool_iff.
  unfold peakProminence. intuition lia.
Qed.

(** Every peak [findPeaks] returns passed the first loop, so its
    prominence reaches the threshold, also with the windows of the
    specification. *)
Lemma findPeaks_kept_only_if (data : list Q) (height threshold : Q)
  (distance : option Z) (i : nat) :
  In i (peaks (findPeaks data height (Some threshold) distance)) ->
  In i (localPeaks data height threshold) /\
  threshold <= peakProminence data i /\
  threshold <= specProminence data i.
Proof.
  intros Hin.
  assert (Hall : Forall (fun j => In j (localPeaks data height threshold))
                   (peaks (findPeaks data height (Some threshold) distance))).
  { unfold findPeaks.
    match goal with
    | |- context [distanceFilter ?d ?ps ?hs [] []] =>
        pose proof (distanceFilter_Forall
                      (fun j => In j (localPeaks data height threshold)) d ps
                      hs (proj2 (Forall_forall _ _) (fun j H => H)) [] []
                      (Forall_nil _)) as H;
        destruct (distanceFilter d ps hs [] []) as [filtered filteredHeights]
    end.
    simpl. exact H. }
  rewrite Forall_forall in Hall. specialize (Hall i Hin).
  split; [exact Hall|].
  apply localPeaks_spec in Hall. destruct Hall as [_ [_ [_ [_ Hp]]]].
  fold (peakProminence data i) in Hp.
  split; [exact Hp|].
  eapply Qle_trans; [exact Hp|apply peakProminence_le_spec].
Qed.

(** C6 at the failing input.  In [plateau] the sample at index 1 is a
    local maximum of height 1; the lowest of the 50 samples to its right
    is the last one, 0, so the prominence of the specification is 1 and
    the candidate should be kept at the threshold 0.05.  [findPeaks] does
    not look at that sample, computes the prominence 0.01 and returns no
    peak. *)
Theorem findPeaks_right_window_short :
  length plateau = 52%nat /\
  at_index plateau 0 < at_index plateau 1 /\
  at_index plateau 2 < at_index plateau 1 /\
  1 # 100 <= at_index plateau 1 /\
  specProminence plateau 1 == 1 /\
  peakProminence plateau 1 == 1 # 100 /\
  isLocalPeak plateau (1 # 100) (5 # 100) 1 = false /\
  peaks (findPeaks plateau (1 # 100) (Some (5 # 100)) (Some 1%Z)) = [].
Proof.
  repeat split; vm_compute; solve [reflexivity | discriminate].
Qed.

(* ================================================================== *)
(** ** Peak detection *)
(* ================================================================== *)

(** Building the peak records succeeds when every peak index is inside
    the wavenumber array, and every position is then a wavenumber of the
    array rounded to two decimals. *)
Lemma buildPeaks_spec (wn absorbance fwhms : list Q) (props : PeakProperties)
  (snrs : list Q) (indices : list nat) (i : nat) :
  Forall (fun idx => (idx < length wn)%nat) indices ->
  exists peakList,
    allSome (mapi_from (buildPeak wn absorbance fwhms props snrs) i indices)
    = Some peakList /\
    Forall (fun p => exists w, In w wn /\ position p = toFixed 2 w) peakList.
Proof.
  intros H. revert i. induction H as [|idx indices Hidx _ IH]; intros i.
  - exists []. split; [reflexivity|constructor].
  - simpl. unfold buildPeak at 1.
    destruct (nth_error wn idx) as [w|] eqn:E.
    + destruct (IH (S i)) as [rest [Hrest Hall]]. rewrite Hrest.
      eexists. split; [reflexivity|].
      constructor; [|exact Hall].
      exists w. split; [|reflexivity]. apply nth_error_In with idx. exact E.
    + apply nth_error_None in E. lia.
Qed.









(** A flat spectrum has no peak. *)
Example detectPeaks_flat_example :
  detectPeaks MathQ wn10 (repeat 50 10) defaultOptions = Some [].
Proof. vm_compute. reflexivity. Qed.

(* ================================================================== *)
(** ** Annotating every peak *)
(* ================================================================== *)



(* ================================================================== *)
(** ** Further properties of the rule matcher *)
(* ================================================================== *)

(** Turns the boolean comparisons among the hypotheses into
    inequalities. *)
Ltac q_bools :=
  repeat match goal with
         | H : _ && _ = true |- _ => apply andb_true_iff in H; destruct H
         | H : Qle_bool _ _ = true |- _ => apply Qle_bool_iff in H
         | H : Qle_bool _ _ = false |- _ => apply Qle_bool_false in H
         | H : Qlt_bool _ _ = true |- _ => apply Qlt_bool_iff in H
         | H : Qlt_bool _ _ = false |- _ => apply Qlt_bool_false in H
         end.

(** X1.  On a range with min <= max the wavenumber test gets weaker as
    the tolerance grows: a position that matches with one tolerance
    matches with every larger one.  So a peak that passes the 5% gate of
    a range also passes the 10% test of the secondary search on it. *)
Theorem wavenumberMatch_tolerance_monotone (p lo hi t1 t2 : Q) :
  lo <= hi ->
  t1 <= t2 ->
  wavenumberMatch p (lo, hi) t1 = true ->
  wavenumberMatch p (lo, hi) t2 = true.
Proof.
  intros Hr Ht H. unfold wavenumberMatch in *. q_bools.
  assert (Hm : (hi - lo) * t1 <= (hi - lo) * t2) by nra.
  apply andb_true_iff. split; apply Qle_bool_iff; lra.
Qed.

Lemma wavenumberMatch_tolerance_monotone_witness :
  wavenumberMatch 1698 (1700, 1750) (1 # 10) = true.
Proof.
  apply (wavenumberMatch_tolerance_monotone 1698 1700 1750 (5 # 100)
           (1 # 10)).
  - vm_compute. discriminate.
  - vm_compute. discriminate.
  - reflexivity.
Defined.

(** X2.  A range written with its bounds swapped (min > max) matches no
    position, whatever the non-negative tolerance: the tolerance then
    shrinks the interval instead of widening it. *)
Theorem wavenumberMatch_swapped_range (p lo hi t : Q) :
  hi < lo ->
  0 <= t ->
  wavenumberMatch p (lo, hi) t = false.
Proof.
  intros Hr Ht. unfold wavenumberMatch.
  destruct (Qle_bool (lo - (hi - lo) * t) p) eqn:E1; [|reflexivity].
  destruct (Qle_bool p (hi + (hi - lo) * t)) eqn:E2; [|reflexivity].
  q_bools. exfalso. nra.
Qed.

Lemma wavenumberMatch_swapped_range_witness :
  wavenumberMatch 1725 (1750, 1700) (5 # 100) = false.
Proof.
  apply (wavenumberMatch_swapped_range 1725 1750 1700 (5 # 100)).
  - vm_compute. reflexivity.
  - vm_compute. discriminate.
Defined.

(** X3.  The five shape classes together accept the widths from 7 to
    1800 cm-1 and no other: a peak narrower than 7 or wider than 1800 is
    rejected by every known class, and any other peak passes the shape
    check of at least one. *)
Theorem shapeMatch_known_classes_cover (peakFWHM : Q) :
  (exists ruleShape,
      In ruleShape knownShapes /\ fst (shapeMatch peakFWHM ruleShape) = true)
  <-> 7 <= peakFWHM <= 1800.
Proof.
  split.
  - intros [s [Hs Hok]]. unfold knownShapes in Hs. simpl in Hs.
    unfold shapeMatch in Hok.
    destruct Hs as [<-|[<-|[<-|[<-|[<-|[]]]]]];
      match type of Hok with
      | context [shapeSpecs ?s] =>
          let band := eval vm_compute in (shapeSpecs s) in
          change (shapeSpecs s) with band in Hok
      end; cbv beta iota in Hok;
      repeat match type of Hok with
             | context [if ?b then _ else _] => destruct b eqn:?; simpl in Hok
             end;
      try discriminate; q_bools; lra.
  - intros [Hlo Hhi].
    destruct (Qlt_le_dec peakFWHM 75) as [H1|H1].
    + exists "sharp"%string. split; [simpl; tauto|].
      unfold shapeMatch.
      match goal with
      | |- context [shapeSpecs ?s] =>
          let band := eval vm_compute in (shapeSpecs s) in
          change (shapeSpecs s) with band
      end; cbv beta iota.
      repeat match goal with
             | |- context [if ?b then _ else _] => destruct b eqn:?; simpl
             end; try reflexivity; q_bools; lra.
    + destruct (Qlt_le_dec peakFWHM 450) as [H2|H2].
      * exists "broad"%string. split; [simpl; tauto|].
        unfold shapeMatch.
      match goal with
      | |- context [shapeSpecs ?s] =>
          let band := eval vm_compute in (shapeSpecs s) in
          change (shapeSpecs s) with band
      end; cbv beta iota.
        repeat match goal with
               | |- context [if ?b then _ else _] => destruct b eqn:?; simpl
               end; try reflexivity; q_bools; lra.
      * exists "very-broad"%string. split; [simpl; tauto|].
        unfold shapeMatch.
      match goal with
      | |- context [shapeSpecs ?s] =>
          let band := eval vm_compute in (shapeSpecs s) in
          change (shapeSpecs s) with band
      end; cbv beta iota.
        repeat match goal with
               | |- context [if ?b then _ else _] => destruct b eqn:?; simpl
               end; try reflexivity; q_bools; lra.
Qed.

Lemma shapeMatch_known_classes_cover_witness :
  exists ruleShape,
    In ruleShape knownShapes /\ fst (shapeMatch 60 ruleShape) = true.
Proof.
  apply (proj2 (shapeMatch_known_classes_cover 60)).
  split; vm_compute; discriminate.
Defined.

Lemma intensityCheck_permissive (peakIntensity : Q) (ruleIntensity : string)
  (spectrumMaxIntensity : option Q) :
  fst (intensityCheck peakIntensity ruleIntensity spectrumMaxIntensity) = true
  /\ (snd (intensityCheck peakIntensity ruleIntensity spectrumMaxIntensity)
      = 0
      \/ snd (intensityCheck peakIntensity ruleIntensity spectrumMaxIntensity)
         = 5 # 100).
Proof.
  unfold intensityCheck. destruct (thresholds ruleIntensity) as [[lo hi]|].
  - match goal with
    | |- context [if ?b then _ else _] => destruct b
    end; simpl; auto.
  - simpl. auto.
Qed.

Lemma shapeMatch_bonus (peakFWHM : Q) (ruleShape : string) :
  fst (shapeMatch peakFWHM ruleShape) = true ->
  snd (shapeMatch peakFWHM ruleShape) = 0
  \/ snd (shapeMatch peakFWHM ruleShape) = 5 # 100.
Proof.
  unfold shapeMatch. destruct (shapeSpecs ruleShape) as [[lo hi]|].
  - repeat match goal with
           | |- context [if ?b then _ else _] => destruct b
           end; simpl; auto; discriminate.
  - simpl. auto.
Qed.

(** What a turn of the loop over the subtypes does, in all cases: it
    skips a subtype that fails a gate, it throws on a passing subtype
    when the peak index is outside the peak list, and otherwise it emits
    a candidate with the fields below. *)
Lemma scoreSubtype_cases (peakIdx : nat) (peak : Peak) (allPeaks : list Peak)
  (maxIntensity : option Q) (modeKey modeName : string) (subtype : SubType) :
  (passesGates peak subtype = false /\
   scoreSubtype peakIdx peak allPeaks maxIntensity modeKey modeName subtype
   = Skip)
  \/ (passesGates peak subtype = true /\
      nth_error allPeaks peakIdx = None /\
      scoreSubtype peakIdx peak allPeaks maxIntensity modeKey modeName subtype
      = Throw)
  \/ (passesGates peak subtype = true /\
      exists primary c,
        nth_error allPeaks peakIdx = Some primary /\
        scoreSubtype peakIdx peak allPeaks maxIntensity modeKey modeName
          subtype = Emit c /\
        peakIndex c = peakIdx /\
        candidateRule c = entryRule (modeKey, subtype) /\
        vibrationMode c = modeName /\
        secondaryPeaksFound c = secondaryCount primary allPeaks subtype /\
        secondaryBonus (scoring c)
        = toFixed 3 ((1 # 10) * Q_of_nat (secondaryPeaksFound c)) /\
        shapeBonus (scoring c)
        = toFixed 3 (snd (shapeMatch (fwhm peak) (primaryShapeOf subtype))) /\
        intensityBonus (scoring c)
        = toFixed 3 (snd (intensityCheck (intensity peak)
                            (ruleIntensityOf subtype) maxIntensity)) /\
        sc_wavenumberMatch (scoring c) = true /\
        sc_shapeMatch (scoring c) = true /\
        sc_intensityMatch (scoring c) = true).
Proof.
  unfold scoreSubtype, passesGates, primaryRangeOf, primaryShapeOf,
    ruleIntensityOf.
  destruct (wavenumberMatch (position peak) _ (5 # 100)); simpl;
    [|left; split; reflexivity].
  destruct (shapeMatch (fwhm peak) _) as [shapeOk sb] eqn:Es.
  destruct shapeOk; simpl; [|left; split; reflexivity].
  pose proof (intensityCheck_permissive (intensity peak)
                (or_string
                   (pp_intensity (or_object (st_primaryPeak subtype)
                                    defaultPrimary)) "medium")
                maxIntensity) as [Hok _].
  destruct (intensityCheck (intensity peak) _ _) as [intensityOk ib] eqn:Ei.
  simpl in Hok. subst intensityOk.
  right. destruct (nth_error allPeaks peakIdx) as [primary|] eqn:En.
  - right. split; [reflexivity|]. exists primary.
    rewrite (findSecondaryPeaks_spec _ _ _ _ _ En).
    eexists. split; [reflexivity|]. split; [reflexivity|].
    simpl. repeat split; reflexivity.
  - left. split; [reflexivity|]. split; [reflexivity|].
    unfold findSecondaryPeaks. rewrite En. reflexivity.
Qed.

Section CollectFurther.

Variables (peakIdx : nat) (peak : Peak) (allPeaks : list Peak).


Lemma collected_origin (primary : Peak) (rulesDb : RulesDb)
  (collected : list Candidate) (c : Candidate) :
  nth_error allPeaks peakIdx = Some primary ->
  collectCandidates peakIdx peak rulesDb allPeaks = Some collected ->
  In c collected ->
  exists modeKey modeName subtype,
    In (modeKey, subtype) (subtypesOf rulesDb) /\
    scoreSubtype peakIdx peak allPeaks (Math_max (map intensity allPeaks))
      modeKey modeName subtype = Emit c.
Proof.
  intros Hnth Hc Hin. unfold collectCandidates in Hc.
  rewrite (collectModes_spec peakIdx peak primary allPeaks Hnth) in Hc.
  injection Hc as <-.
  apply in_flat_map in Hin. destruct Hin as [[modeKey mode] [Hmode Hin]].
  apply in_flat_map in Hin. destruct Hin as [subtype [Hsub Hin]].
  simpl in Hsub, Hin.
  exists modeKey, (or_string (md_name mode) modeKey), subtype. split.
  - unfold subtypesOf. apply in_flat_map. exists (modeKey, mode).
    split; [exact Hmode|]. apply in_map_iff. exists subtype.
    split; [reflexivity|exact Hsub].
  - destruct (scoreSubtype _ _ _ _ _ _ subtype); simpl in Hin;
      try contradiction.
    destruct Hin as [<-|[]]. reflexivity.
Qed.

End CollectFurther.



Lemma collectSubtypes_out_of_range (peakIdx : nat) (peak : Peak)
  (allPeaks : list Peak) (maxIntensity : option Q) (modeKey modeName : string)
  (subTypes : list SubType) :
  nth_error allPeaks peakIdx = None ->
  collectSubtypes peakIdx peak allPeaks maxIntensity modeKey modeName subTypes
  = if existsb (passesGates peak) subTypes then None else Some [].
Proof.
  intros Hnth. induction subTypes as [|subtype rest IH]; [reflexivity|].
  simpl. rewrite IH.
  destruct (scoreSubtype_cases peakIdx peak allPeaks maxIntensity modeKey
              modeName subtype)
    as [[Hg Hs]|[[Hg [_ Hs]]|[_ [primary [c [Hp _]]]]]].
  - rewrite Hg, Hs. reflexivity.
  - rewrite Hg, Hs. reflexivity.
  - congruence.
Qed.

Lemma collectCandidates_out_of_range (peakIdx : nat) (peak : Peak)
  (rulesDb : RulesDb) (allPeaks : list Peak) :
  nth_error allPeaks peakIdx = None ->
  collectCandidates peakIdx peak rulesDb allPeaks
  = if existsb (fun entry => passesGates peak (snd entry))
         (subtypesOf rulesDb)
    then None else Some [].
Proof.
  intros Hnth. unfold collectCandidates, subtypesOf.
  induction (or_object (vibrationModes rulesDb) [])
    as [|[modeKey mode] rest IH]; [reflexivity|].
  simpl. rewrite existsb_app, IH.
  rewrite (collectSubtypes_out_of_range _ _ _ _ _ _ _ Hnth).
  assert (E : existsb (fun entry : string * SubType =>
                         passesGates peak (snd entry))
                (map (fun subtype => (modeKey, subtype))
                   (or_object (md_subTypes mode) []))
              = existsb (passesGates peak)
                  (or_object (md_subTypes mode) [])).
  { induction (or_object (md_subTypes mode) []) as [|s l IHl];
      [reflexivity|]. simpl. rewrite IHl. reflexivity. }
  rewrite E.
  destruct (existsb (passesGates peak) (or_object (md_subTypes mode) []));
    [reflexivity|].
  simpl. destruct (existsb _ _); reflexivity.
Qed.

(** X5.  With a peak index outside the peak list [matchPeakCandidates]
    throws exactly when some subtype of the database passes the
    wavenumber gate and the shape check (the secondary search then reads
    the missing peak); when none does, it returns the empty list. *)
Theorem matchPeakCandidates_index_out_of_range (peakIdx : nat) (peak : Peak)
  (rulesDb : RulesDb) (allPeaks : list Peak) :
  nth_error allPeaks peakIdx = None ->
  matchPeakCandidates peakIdx peak rulesDb allPeaks
  = if existsb (fun entry => passesGates peak (snd entry))
         (subtypesOf rulesDb)
    then None else Some [].
Proof.
  intros Hnth. unfold matchPeakCandidates.
  rewrite (collectCandidates_out_of_range _ _ _ _ Hnth).
  destruct (existsb _ _); reflexivity.
Qed.

Lemma matchPeakCandidates_index_out_of_range_witness :
  matchPeakCandidates 3 carbonylPeak tiedDb [carbonylPeak]
  = if existsb (fun entry => passesGates carbonylPeak (snd entry))
         (subtypesOf tiedDb)
    then None else Some [].
Proof.
  apply (matchPeakCandidates_index_out_of_range 3 carbonylPeak tiedDb
           [carbonylPeak]).
  reflexivity.
Defined.

Lemma toFixed3_tenths (n : nat) :
  toFixed 3 ((1 # 10) * Q_of_nat n) == (1 # 10) * Q_of_nat n.
Proof.
  assert (E : (1 # 10) * Q_of_nat n == (100 * Z.of_nat n # 1000)).
  { unfold Q_of_nat, inject_Z, Qeq, Qmult. cbn [Qnum Qden]. lia. }
  rewrite (toFixed_comp 3 _ _ E), toFixed3_grid_any. symmetry. exact E.
Qed.

(** X6.  Every candidate [matchPeakCandidates] returns carries the index
    it was called with; its three match flags (wavenumber, shape,
    intensity) are always set, so they tell nothing; its shape and
    intensity bonuses are 0 or 0.05, never the -0.2 of a rejection; and
    its secondary bonus is 0.1 for each secondary peak found. *)
Theorem returned_candidate_breakdown (peakIdx : nat) (peak : Peak)
  (rulesDb : RulesDb) (allPeaks : list Peak) (candidates : list Candidate) :
  matchPeakCandidates peakIdx peak rulesDb allPeaks = Some candidates ->
  Forall (fun c =>
            peakIndex c = peakIdx /\
            sc_wavenumberMatch (scoring c) = true /\
            sc_shapeMatch (scoring c) = true /\
            sc_intensityMatch (scoring c) = true /\
            (shapeBonus (scoring c) == 0
             \/ shapeBonus (scoring c) == 5 # 100) /\
            (intensityBonus (scoring c) == 0
             \/ intensityBonus (scoring c) == 5 # 100) /\
            secondaryBonus (scoring c)
            == (1 # 10) * Q_of_nat (secondaryPeaksFound c)) candidates.
Proof.
  unfold matchPeakCandidates.
  destruct (collectCandidates peakIdx peak rulesDb allPeaks)
    as [collected|] eqn:Hc; [|discriminate].
  intros H. injection H as <-. rewrite slice_from_0.
  rewrite Forall_forall. intros c Hin.
  assert (Hin' : In c collected).
  { apply (js_sort_In byConfidenceDesc).
    rewrite <- (firstn_skipn 5 (js_sort byConfidenceDesc collected)).
    apply in_or_app. left. exact Hin. }
  destruct (nth_error allPeaks peakIdx) as [primary|] eqn:Hnth.
  2:{ pose proof (collectCandidates_out_of_range peakIdx peak
                    rulesDb allPeaks Hnth) as Hout.
      rewrite Hc in Hout. destruct (existsb _ _); [discriminate|].
      injection Hout as ->. contradiction. }
  destruct (collected_origin peakIdx peak allPeaks primary rulesDb collected
              c Hnth Hc Hin') as [modeKey [modeName [subtype [_ Hs]]]].
  destruct (scoreSubtype_cases peakIdx peak allPeaks
              (Math_max (map intensity allPeaks)) modeKey modeName subtype)
    as [[_ Hs']|[[_ [_ Hs']]|[Hg [primary' [c' [_ [Hs' Hf]]]]]]];
    rewrite Hs in Hs'; try discriminate.
  injection Hs' as <-.
  destruct Hf as [Hidx [_ [_ [_ [Hsec [Hsb [Hib [Hw [Hsh Hi]]]]]]]]].
  split; [exact Hidx|]. split; [exact Hw|]. split; [exact Hsh|].
  split; [exact Hi|].
  assert (Hgate : fst (shapeMatch (fwhm peak) (primaryShapeOf subtype)) = true).
  { unfold passesGates in Hg. apply andb_true_iff in Hg. apply Hg. }
  split; [|split].
  - rewrite Hsb. destruct (shapeMatch_bonus _ _ Hgate) as [E|E]; rewrite E;
      [left|right]; vm_compute; reflexivity.
  - rewrite Hib.
    destruct (intensityCheck_permissive (intensity peak)
                (ruleIntensityOf subtype)
                (Math_max (map intensity allPeaks))) as [_ [E|E]];
      rewrite E; [left|right]; vm_compute; reflexivity.
  - rewrite Hsec. apply toFixed3_tenths.
Qed.

Lemma returned_candidate_breakdown_witness :
  exists candidates,
    matchPeakCandidates 0 carbonylPeak tiedDb [carbonylPeak]
    = Some candidates /\
    length candidates = 5%nat /\
    Forall (fun c =>
              peakIndex c = 0%nat /\
              sc_wavenumberMatch (scoring c) = true /\
              sc_shapeMatch (scoring c) = true /\
              sc_intensityMatch (scoring c) = true /\
              (shapeBonus (scoring c) == 0
               \/ shapeBonus (scoring c) == 5 # 100) /\
              (intensityBonus (scoring c) == 0
               \/ intensityBonus (scoring c) == 5 # 100) /\
              secondaryBonus (scoring c)
              == (1 # 10) * Q_of_nat (secondaryPeaksFound c)) candidates.
Proof.
  eexists. split; [vm_compute; reflexivity|].
  split; [reflexivity|].
  apply (returned_candidate_breakdown 0 carbonylPeak tiedDb [carbonylPeak]).
  vm_compute. reflexivity.
Defined.

(* ================================================================== *)
(** ** Further properties of the secondary search *)
(* ================================================================== *)

Lemma scanPeaks_first (pos gap : Q) (range : Q * Q) (peaks : list Peak)
  (start k : nat) :
  scanPeaks pos gap range peaks start = Some k ->
  (start <= k)%nat /\
  exists p, nth_error peaks (k - start) = Some p /\
            secondaryHit pos gap range p = true /\
            forall j pj, (j < k - start)%nat ->
                         nth_error peaks j = Some pj ->
                         secondaryHit pos gap range pj = false.
Proof.
  revert start. induction peaks as [|peak rest IH]; intros start H;
    [discriminate|].
  simpl in H. destruct (secondaryHit pos gap range peak) eqn:Hhit.
  - injection H as <-. split; [lia|]. rewrite Nat.sub_diag.
    exists peak. split; [reflexivity|]. split; [exact Hhit|].
    intros j pj Hj. lia.
  - destruct (IH (S start) H) as [Hle [p [Hnth [Hp Hbefore]]]].
    split; [lia|]. exists p.
    replace (k - start)%nat with (S (k - S start)) by lia.
    split; [exact Hnth|]. split; [exact Hp|].
    intros [|j] pj Hj Hpj.
    + injection Hpj as <-. exact Hhit.
    + apply (Hbefore j pj); [lia|exact Hpj].
Qed.

(** X7.  When [findSecondaryPeaks] returns, it has at most one match for
    each spec, and every match pairs a spec of the list with the FIRST
    peak, in the order of the peak list, that lies in the spec's range
    (tolerance 0.1) and within the gap of the primary peak: no earlier
    peak passes that test.  The primary peak itself is not excluded. *)
Theorem findSecondaryPeaks_first_hit (primaryPeakIdx : nat)
  (secondarySpecs : list SecondarySpec) (peaks : list Peak)
  (maxWavenumberGap : Q) (matches : list (nat * SecondarySpec)) :
  findSecondaryPeaks primaryPeakIdx secondarySpecs peaks maxWavenumberGap
  = Some matches ->
  exists primary,
    nth_error peaks primaryPeakIdx = Some primary /\
    (length matches <= length secondarySpecs)%nat /\
    Forall (fun m =>
              In (snd m) secondarySpecs /\
              exists p,
                nth_error peaks (fst m) = Some p /\
                secondaryHit (position primary) maxWavenumberGap
                  (specRangeOf (snd m)) p = true /\
                forall j pj, (j < fst m)%nat ->
                             nth_error peaks j = Some pj ->
                             secondaryHit (position primary) maxWavenumberGap
                               (specRangeOf (snd m)) pj = false) matches.
Proof.
  intros H.
  destruct (nth_error peaks primaryPeakIdx) as [primary|] eqn:Hnth.
  2:{ unfold findSecondaryPeaks in H. rewrite Hnth in H. discriminate. }
  rewrite (findSecondaryPeaks_spec _ _ _ _ _ Hnth) in H. injection H as <-.
  exists primary. split; [reflexivity|].
  destruct (requiredUnmatched _ _ _ _); [split; [simpl; lia|constructor]|].
  split.
  - unfold matchedSpecs.
    induction secondarySpecs as [|spec rest IH]; [simpl; lia|].
    simpl. rewrite length_app.
    destruct (specMatch _ _ _ spec); simpl; lia.
  - rewrite Forall_forall. intros [k spec] Hin.
    unfold matchedSpecs in Hin. apply in_flat_map in Hin.
    destruct Hin as [spec' [Hspec Hin]].
    destruct (specMatch (position primary) maxWavenumberGap peaks spec')
      as [k'|] eqn:Hm; [|contradiction].
    destruct Hin as [E|[]]. injection E as <- <-.
    split; [exact Hspec|].
    unfold specMatch in Hm. apply scanPeaks_first in Hm.
    destruct Hm as [_ [p Hp]]. rewrite Nat.sub_0_r in Hp.
    exists p. exact Hp.
Qed.

Lemma findSecondaryPeaks_first_hit_witness :
  exists primary,
    nth_error [carbonylPeak; carbonylPeak] 1 = Some primary /\
    (length [(0%nat, nearSpec true)] <= length [nearSpec true])%nat /\
    Forall (fun m =>
              In (snd m) [nearSpec true] /\
              exists p,
                nth_error [carbonylPeak; carbonylPeak] (fst m) = Some p /\
                secondaryHit (position primary) 200
                  (specRangeOf (snd m)) p = true /\
                forall j pj, (j < fst m)%nat ->
                             nth_error [carbonylPeak; carbonylPeak] j
                             = Some pj ->
                             secondaryHit (position primary) 200
                               (specRangeOf (snd m)) pj = false)
      [(0%nat, nearSpec true)].
Proof.
  apply (findSecondaryPeaks_first_hit 1 [nearSpec true]
           [carbonylPeak; carbonylPeak] 200 [(0%nat, nearSpec true)]).
  reflexivity.
Defined.

(* ================================================================== *)
(** ** Further properties of the annotations *)
(* ================================================================== *)

Lemma skipn_cons_nth_error {A : Type} (l : list A) (n : nat) (x : A)
  (rest : list A) :
  x :: rest = skipn n l ->
  nth_error l n = Some x /\ rest = skipn (S n) l.
Proof.
  revert l. induction n as [|n IH]; intros l H.
  - simpl in H. subst l. split; reflexivity.
  - destruct l as [|y l]; [discriminate|]. simpl in H.
    destruct (IH l H) as [H1 H2]. split; assumption.
Qed.

Lemma matchPeaksFrom_shape (rulesDb : RulesDb) (allPeaks todo : list Peak)
  (peakIdx : nat) (annotations : list Annotation) :
  todo = skipn peakIdx allPeaks ->
  matchPeaksFrom peakIdx todo allPeaks rulesDb = Some annotations ->
  StronglySorted lt (map an_peakIndex annotations) /\
  Forall (fun a => (peakIdx <= an_peakIndex a)%nat /\
                   annotates allPeaks rulesDb a) annotations /\
  (forall i peak c0 rest,
      (peakIdx <= i)%nat ->
      nth_error allPeaks i = Some peak ->
      matchPeakCandidates i peak rulesDb allPeaks = Some (c0 :: rest) ->
      In i (map an_peakIndex annotations)).
Proof.
  revert peakIdx annotations.
  induction todo as [|peak rest IH]; intros peakIdx annotations Htodo H.
  - injection H as <-. split; [constructor|]. split; [constructor|].
    intros i p c0 more Hle Hnth _. exfalso.
    assert (Hlen : (length (skipn peakIdx allPeaks) = 0)%nat)
      by (rewrite <- Htodo; reflexivity).
    rewrite length_skipn in Hlen.
    assert (i < length allPeaks)%nat
      by (apply nth_error_Some; congruence).
    lia.
  - destruct (skipn_cons_nth_error _ _ _ _ Htodo) as [Hnth Hrest].
    simpl in H.
    destruct (matchPeakCandidates peakIdx peak rulesDb allPeaks)
      as [candidates|] eqn:Hc; [|discriminate].
    destruct (matchPeaksFrom (S peakIdx) rest allPeaks rulesDb)
      as [more|] eqn:Hmore; [|discriminate].
    injection H as <-.
    destruct (IH (S peakIdx) more Hrest Hmore) as [Hsorted [Hall Hcomplete]].
    assert (Hall' : Forall (fun a => (peakIdx <= an_peakIndex a)%nat /\
                                     annotates allPeaks rulesDb a) more).
    { eapply Forall_impl; [|exact Hall]. intros a [Hle Ha].
      split; [lia|exact Ha]. }
    destruct candidates as [|c0 cs].
    + simpl. split; [exact Hsorted|]. split; [exact Hall'|].
      intros i p d0 ds Hle Hi Hm.
      destruct (Nat.eq_dec i peakIdx) as [->|Hne].
      * rewrite Hnth in Hi. injection Hi as <-. rewrite Hc in Hm.
        discriminate.
      * apply (Hcomplete i p d0 ds); [lia|exact Hi|exact Hm].
    + simpl. split; [|split].
      * constructor; [exact Hsorted|].
        rewrite Forall_forall. intros i Hi. apply in_map_iff in Hi.
        destruct Hi as [a [<- Ha]].
        rewrite Forall_forall in Hall. destruct (Hall a Ha) as [Hle _]. lia.
      * constructor; [|exact Hall'].
        split; [simpl; lia|].
        exists peak, c0, cs. simpl. rewrite Hnth, Hc.
        repeat split; reflexivity.
      * intros i p d0 ds Hle Hi Hm.
        destruct (Nat.eq_dec i peakIdx) as [->|Hne]; [left; reflexivity|].
        right. apply (Hcomplete i p d0 ds); [lia|exact Hi|exact Hm].
Qed.



Lemma collected_sorted_head (collected : list Candidate) (c0 : Candidate)
  (rest : list Candidate) :
  slice (js_sort byConfidenceDesc collected) 0 5 = c0 :: rest ->
  Forall (fun c => confidence c <= confidence c0) collected.
Proof.
  rewrite slice_from_0. intros H.
  pose proof (js_sort_desc confidence collected) as Hsorted.
  fold byConfidenceDesc in Hsorted.
  rewrite Forall_forall. intros c Hin.
  apply (js_sort_In byConfidenceDesc) in Hin.
  destruct (js_sort byConfidenceDesc collected) as [|d0 ds]; [contradiction|].
  simpl in H. injection H as -> _.
  destruct Hin as [<-|Hin]; [apply Qle_refl|].
  apply StronglySorted_inv in Hsorted. destruct Hsorted as [_ Hall].
  rewrite Forall_forall in Hall. exact (Hall c Hin).
Qed.

(** X9.  The primary match of an annotation is a best-scoring candidate of
    its peak: no subtype that passes the gates for that peak, among the
    five kept or not, has a higher confidence. *)
Theorem primaryMatch_is_best (peaks : list Peak) (rulesDb : RulesDb)
  (annotations : list Annotation) :
  matchAllPeaks peaks rulesDb = Some annotations ->
  Forall (fun a =>
            exists peak collected,
              nth_error peaks (an_peakIndex a) = Some peak /\
              collectCandidates (an_peakIndex a) peak rulesDb peaks
              = Some collected /\
              In (primaryMatch a) collected /\
              Forall (fun c => confidence c <= confidence (primaryMatch a))
                collected) annotations.
Proof.
  intros H.
  destruct (matchPeaksFrom_shape rulesDb peaks peaks 0 annotations
              eq_refl H) as [_ [Hall _]].
  eapply Forall_impl; [|exact Hall].
  intros a [_ [peak [c0 [rest [Hnth [Hm [_ [Hp _]]]]]]]].
  unfold matchPeakCandidates in Hm.
  destruct (collectCandidates (an_peakIndex a) peak rulesDb peaks)
    as [collected|] eqn:Hc; [|discriminate].
  injection Hm as Hm. exists peak, collected.
  split; [exact Hnth|]. split; [exact Hc|]. rewrite Hp. split.
  - apply (js_sort_In byConfidenceDesc). rewrite slice_from_0 in Hm.
    rewrite <- (firstn_skipn 5 (js_sort byConfidenceDesc collected)).
    apply in_or_app. left. rewrite Hm. left. reflexivity.
  - exact (collected_sorted_head collected c0 rest Hm).
Qed.

Lemma primaryMatch_is_best_witness :
  exists annotations,
    matchAllPeaks [carbonylPeak] tiedDb = Some annotations /\
    Forall (fun a =>
              exists peak collected,
                nth_error [carbonylPeak] (an_peakIndex a) = Some peak /\
                collectCandidates (an_peakIndex a) peak tiedDb [carbonylPeak]
                = Some collected /\
                In (primaryMatch a) collected /\
                Forall (fun c => confidence c <= confidence (primaryMatch a))
                  collected) annotations.
Proof.
  eexists. split; [vm_compute; reflexivity|].
  apply (primaryMatch_is_best [carbonylPeak] tiedDb).
  vm_compute. reflexivity.
Defined.












(* ================================================================== *)
(** ** Further properties of the baseline removal *)
(* ================================================================== *)

Lemma nth_error_mapi_from {A B : Type} (f : A -> nat -> B) (i k : nat)
  (xs : list A) :
  nth_error (mapi_from f i xs) k
  = option_map (fun x => f x (i + k)%nat) (nth_error xs k).
Proof.
  revert i k. induction xs as [|x xs IH]; intros i k.
  - destruct k; reflexivity.
  - destruct k as [|k]; simpl.
    + rewrite Nat.add_0_r. reflexivity.
    + rewrite IH. rewrite Nat.add_succ_comm. reflexivity.
Qed.












(* ================================================================== *)
(** ** Further properties of the smoothing *)
(* ================================================================== *)




Section SmoothingBounds.

Variable M : MathObj.
Hypothesis Math_exp_pos : forall x, 0 < Math_exp M x.





End SmoothingBounds.


(* ================================================================== *)
(** ** Further properties of [findPeaks] *)
(* ================================================================== *)

Lemma StronglySorted_snoc {A : Type} (R : A -> A -> Prop) (l : list A)
  (x : A) :
  StronglySorted R l -> Forall (fun y => R y x) l ->
  StronglySorted R (l ++ [x]).
Proof.
  induction 1 as [|y l Hl IH Hy]; intros Hall; simpl.
  - constructor; constructor.
  - inversion Hall; subst. constructor; [apply IH; assumption|].
    apply Forall_app. split; [exact Hy|]. constructor; [assumption|].
    constructor.
Qed.

Lemma StronglySorted_filter {A : Type} (R : A -> A -> Prop)
  (f : A -> bool) (l : list A) :
  StronglySorted R l -> StronglySorted R (filter f l).
Proof.
  induction 1 as [|x l Hl IH Hx]; simpl; [constructor|].
  destruct (f x); [|exact IH]. constructor; [exact IH|].
  rewrite Forall_forall in *. intros y Hy. apply filter_In in Hy.
  apply Hx. apply Hy.
Qed.

Lemma StronglySorted_seq (start len : nat) :
  StronglySorted lt (seq start len).
Proof.
  revert start. induction len as [|len IH]; intros start; simpl;
    constructor; [apply IH|].
  rewrite Forall_forall. intros y Hy. apply in_seq in Hy. lia.
Qed.

Lemma localPeaks_increasing (data : list Q) (height prominence : Q) :
  StronglySorted lt (localPeaks data height prominence).
Proof. apply StronglySorted_filter. apply StronglySorted_seq. Qed.

(** The second loop of [findPeaks] on candidates in increasing order that
    all come after the peaks kept so far. *)
Lemma distanceFilter_spec (h : nat -> Q) (distance : Z)
  (candidates : list nat) :
  StronglySorted lt candidates ->
  forall filtered : list nat,
    StronglySorted (apart distance) filtered ->
    Forall (fun c => Forall (fun q => (q < c)%nat) filtered) candidates ->
    StronglySorted (apart distance)
      (fst (distanceFilter distance candidates (map h candidates) filtered
              (map h filtered))) /\
    snd (distanceFilter distance candidates (map h candidates) filtered
           (map h filtered))
    = map h (fst (distanceFilter distance candidates (map h candidates)
                    filtered (map h filtered))) /\
    (exists kept,
        fst (distanceFilter distance candidates (map h candidates) filtered
               (map h filtered)) = filtered ++ kept /\
        incl kept candidates) /\
    (forall c, In c candidates ->
       In c (fst (distanceFilter distance candidates (map h candidates)
                    filtered (map h filtered)))
       \/ exists q,
            In q (fst (distanceFilter distance candidates (map h candidates)
                         filtered (map h filtered))) /\
            (q < c)%nat /\ (Z.of_nat c - Z.of_nat q < distance)%Z).
Proof.
  induction 1 as [|p candidates Hsorted IH Hp]; intros filtered Hf Hbefore.
  - simpl. split; [exact Hf|]. split; [reflexivity|]. split.
    + exists []. rewrite app_nil_r. split; [reflexivity|].
      intros x [].
    + intros c [].
  - simpl.
    inversion Hbefore as [|? ? Hbp Hbrest]; subst.
    destruct (forallb
                (fun q => negb (Z.abs (Z.of_nat p - Z.of_nat q) <? distance)%Z)
                filtered) eqn:Hkeep.
    + assert (Hf' : StronglySorted (apart distance) (filtered ++ [p])).
      { apply StronglySorted_snoc; [exact Hf|].
        rewrite Forall_forall. intros q Hq.
        rewrite forallb_forall in Hkeep. specialize (Hkeep q Hq).
        apply negb_true_iff in Hkeep. apply Z.ltb_ge in Hkeep.
        rewrite Forall_forall in Hbp. specialize (Hbp q Hq).
        unfold apart. split; [exact Hbp|lia]. }
      assert (Hb' : Forall
                      (fun c => Forall (fun q => (q < c)%nat)
                                  (filtered ++ [p])) candidates).
      { rewrite Forall_forall in *. intros c Hc.
        apply Forall_app. split; [exact (Hbrest c Hc)|].
        constructor; [exact (Hp c Hc)|constructor]. }
      replace (map h filtered ++ [h p]) with (map h (filtered ++ [p]))
        by (rewrite map_app; reflexivity).
      destruct (IH (filtered ++ [p]) Hf' Hb')
        as [H1 [H2 [[kept [H3 H3']] H4]]].
      split; [exact H1|]. split; [exact H2|]. split.
      * exists (p :: kept). rewrite H3, <- app_assoc. split; [reflexivity|].
        intros x [<-|Hx]; [left; reflexivity|right; apply H3'; exact Hx].
      * intros c [<-|Hc]; [|apply H4; exact Hc].
        left. rewrite H3. apply in_or_app. left. apply in_or_app. right.
        left. reflexivity.
    + destruct (IH filtered Hf Hbrest) as [H1 [H2 [[kept [H3 H3']] H4]]].
      split; [exact H1|]. split; [exact H2|]. split.
      * exists kept. split; [exact H3|].
        intros x Hx. right. apply H3'. exact Hx.
      * intros c [<-|Hc]; [|apply H4; exact Hc].
        right.
        assert (Hex : exists q, In q filtered /\
                        (Z.abs (Z.of_nat p - Z.of_nat q) <? distance)%Z
                        = true).
        { clear - Hkeep. induction filtered as [|q filtered IHf];
            [discriminate|].
          simpl in Hkeep. apply andb_false_iff in Hkeep.
          destruct Hkeep as [Hq|Hrest].
          - exists q. split; [left; reflexivity|].
            apply negb_false_iff in Hq. exact Hq.
          - destruct (IHf Hrest) as [q' [Hin Hq']].
            exists q'. split; [right; exact Hin|exact Hq']. }
        destruct Hex as [q [Hq Hclose]]. apply Z.ltb_lt in Hclose.
        rewrite Forall_forall in Hbp. specialize (Hbp q Hq).
        exists q. split; [rewrite H3; apply in_or_app; left; exact Hq|].
        split; [exact Hbp|lia].
Qed.

Lemma findPeaks_loops (data : list Q) (height : Q) (prominence : option Q)
  (distance : option Z) :
  let result := findPeaks data height prominence distance in
  let candidates :=
    localPeaks data height (effectiveProminence data prominence) in
  let d := effectiveDistance data distance in
  StronglySorted (apart d) (peaks result) /\
  peak_heights (properties result) = map (at_index data) (peaks result) /\
  width (properties result) = map (peakWidth data) (peaks result) /\
  incl (peaks result) candidates /\
  (forall c, In c candidates ->
     In c (peaks result)
     \/ exists q, In q (peaks result) /\
                  (q < c)%nat /\ (Z.of_nat c - Z.of_nat q < d)%Z).
Proof.
  unfold findPeaks.
  fold (effectiveProminence data prominence).
  fold (effectiveDistance data distance).
  set (thr := effectiveProminence data prominence).
  set (d := effectiveDistance data distance).
  destruct (distanceFilter_spec (at_index data) d
              (localPeaks data height thr)
              (localPeaks_increasing data height thr) []
              (SSorted_nil _))
    as [H1 [H2 [[kept [H3 H3']] H4]]].
  { rewrite Forall_forall. intros c _. constructor. }
  simpl map in H1, H2, H3, H4.
  destruct (distanceFilter d (localPeaks data height thr)
              (map (at_index data) (localPeaks data height thr)) [] [])
    as [filtered filteredHeights].
  simpl in *. subst filtered.
  split; [exact H1|]. split; [exact H2|]. split; [reflexivity|].
  split; [exact H3'|exact H4].
Qed.

(** X16.  The peak indices [findPeaks] returns are in strictly increasing
    order, and any two of them are at least the distance apart (the
    distance given, or [floor(n / 200)], at least 1, when it is null). *)
Theorem findPeaks_peaks_apart (data : list Q) (height : Q)
  (prominence : option Q) (distance : option Z) :
  StronglySorted (apart (effectiveDistance data distance))
    (peaks (findPeaks data height prominence distance)).
Proof. apply findPeaks_loops. Qed.

(** X17.  The distance criterion of [findPeaks] is first come, first
    kept: a local maximum that passed the height and prominence tests is
    left out only when a peak kept before it, at a smaller index, is
    closer than the distance; its own height plays no part.  Every peak
    returned is one of those local maxima. *)
Theorem findPeaks_first_come_first_kept (data : list Q) (height : Q)
  (prominence : option Q) (distance : option Z) (c : nat) :
  In c (localPeaks data height (effectiveProminence data prominence)) ->
  In c (peaks (findPeaks data height prominence distance))
  \/ exists q,
       In q (peaks (findPeaks data height prominence distance)) /\
       In q (localPeaks data height (effectiveProminence data prominence)) /\
       (q < c)%nat /\
       (Z.of_nat c - Z.of_nat q < effectiveDistance data distance)%Z.
Proof.
  intros Hc.
  destruct (findPeaks_loops data height prominence distance)
    as [_ [_ [_ [Hincl Hgreedy]]]].
  destruct (Hgreedy c Hc) as [H|[q [Hq [Hlt Hd]]]]; [left; exact H|].
  right. exists q. split; [exact Hq|]. split; [apply Hincl; exact Hq|].
  split; assumption.
Qed.

Lemma findPeaks_first_come_first_kept_witness :
  In 3%nat (peaks (findPeaks [0; 1; 0; 2; 0] (1 # 100) (Some (5 # 100))
                     (Some 3%Z)))
  \/ exists q,
       In q (peaks (findPeaks [0; 1; 0; 2; 0] (1 # 100) (Some (5 # 100))
                      (Some 3%Z))) /\
       In q (localPeaks [0; 1; 0; 2; 0] (1 # 100)
               (effectiveProminence [0; 1; 0; 2; 0] (Some (5 # 100)))) /\
       (q < 3)%nat /\
       (Z.of_nat 3 - Z.of_nat q < 3)%Z.
Proof.
  apply (findPeaks_first_come_first_kept [0; 1; 0; 2; 0] (1 # 100)
           (Some (5 # 100)) (Some 3%Z) 3).
  vm_compute. right. left. reflexivity.
Defined.

(** With the distance 3 the lower peak at index 1 hides the higher one at
    index 3. *)
Example findPeaks_keeps_the_earlier_peak :
  peaks (findPeaks [0; 1; 0; 2; 0] (1 # 100) (Some (5 # 100)) (Some 3%Z))
  = [1%nat].
Proof. vm_compute. reflexivity. Qed.

Lemma find_some_In {A : Type} (f : A -> bool) (l : list A) (x : A) :
  find f l = Some x -> In x l.
Proof. intros H. apply find_some in H. apply H. Qed.

Lemma peakWidth_range (data : list Q) (peakIdx : nat) :
  (peakIdx < length data)%nat ->
  (0 <= peakWidth data peakIdx < Z.of_nat (length data))%Z.
Proof.
  intros Hlt. unfold peakWidth.
  set (below := fun i =>
                  Qlt_bool (at_index data i) (at_index data peakIdx / 2)).
  assert (Hl : (match find below (rev (seq 0 peakIdx)) with
                | Some i => i
                | None => peakIdx
                end <= peakIdx)%nat).
  { destruct (find below (rev (seq 0 peakIdx))) as [i|] eqn:E; [|lia].
    apply find_some_In in E. apply in_rev in E. apply in_seq in E. lia. }
  assert (Hr : (peakIdx
                <= match find below
                           (seq (peakIdx + 1) (length data - (peakIdx + 1)))
                   with
                   | Some i => i
                   | None => peakIdx
                   end < length data)%nat).
  { destruct (find below (seq (peakIdx + 1) (length data - (peakIdx + 1))))
      as [i|] eqn:E; [|lia].
    apply find_some_In in E. apply in_seq in E. lia. }
  lia.
Qed.

(** X18.  Every peak [findPeaks] returns is an interior sample that is
    strictly higher than its two neighbours and reaches the height; the
    three property arrays run parallel to the peak indices:
    [peak_heights] holds the signal at the peaks, [width] a number of
    points between 0 and n - 1, and [prominences] the threshold itself,
    the same for every peak, not the prominence measured at the peak. *)
Theorem findPeaks_properties_parallel (data : list Q) (height : Q)
  (prominence : option Q) (distance : option Z) :
  let result := findPeaks data height prominence distance in
  Forall (fun i =>
            (1 <= i /\ i + 1 < length data)%nat /\
            at_index data (i - 1) < at_index data i /\
            at_index data (i + 1) < at_index data i /\
            height <= at_index data i) (peaks result) /\
  peak_heights (properties result) = map (at_index data) (peaks result) /\
  length (width (properties result)) = length (peaks result) /\
  Forall (fun w => (0 <= w < Z.of_nat (length data))%Z)
    (width (properties result)) /\
  prominences (properties result)
  = repeat (effectiveProminence data prominence) (length (peaks result)).
Proof.
  intros result.
  destruct (findPeaks_loops data height prominence distance)
    as [_ [Hh [Hw [Hincl _]]]].
  fold result in Hh, Hw, Hincl.
  split; [|split; [exact Hh|split; [|split]]].
  - rewrite Forall_forall. intros i Hi. apply Hincl in Hi.
    apply localPeaks_spec in Hi. tauto.
  - rewrite Hw. apply length_map.
  - rewrite Hw. rewrite Forall_forall. intros w Hin.
    apply in_map_iff in Hin. destruct Hin as [i [<- Hi]].
    apply peakWidth_range. apply Hincl in Hi.
    apply localPeaks_spec in Hi. lia.
  - unfold result, findPeaks.
    fold (effectiveProminence data prominence).
    destruct (distanceFilter _ _ _ [] []) as [filtered filteredHeights].
    simpl. induction filtered as [|p rest IH]; [reflexivity|].
    simpl. rewrite IH. reflexivity.
Qed.

(* ================================================================== *)
(** ** Further properties of the conversions *)
(* ================================================================== *)

Lemma log10_interp_range (x : Q) :
  1 <= x <= 1000 -> 0 <= log10_interp x <= 3.
Proof.
  intros [Hlo Hhi]. unfold log10_interp.
  assert (E : Qlt_bool x 1 = false).
  { destruct (Qlt_bool x 1) eqn:E; [|reflexivity].
    apply Qlt_bool_iff in E. lra. }
  rewrite E. unfold log10_from1, Qdiv.
  change (/ 9) with (1 # 9). change (/ 90) with (1 # 90).
  change (/ 900) with (1 # 900).
  destruct (Qlt_bool x 10) eqn:E1; [apply Qlt_bool_iff in E1; lra|].
  apply Qlt_bool_false in E1.
  destruct (Qlt_bool x 100) eqn:E2; [apply Qlt_bool_iff in E2; lra|].
  apply Qlt_bool_false in E2. lra.
Qed.

(** X19.  Whatever the transmittance values are, zero, negative or above
    100 %, [transmittanceToAbsorbance] returns one absorbance for each of
    them and every absorbance lies between 0 and 3, given that the
    logarithm sends the numbers from 1 to 1000 into that range: the
    clipping to [0.1, 100] keeps the argument [100 / t] there. *)
Theorem transmittanceToAbsorbance_range (M : MathObj)
  (transmittance : list Q) :
  (forall x, 1 <= x <= 1000 -> 0 <= Math_log10 M x <= 3) ->
  length (transmittanceToAbsorbance M transmittance) = length transmittance /\
  Forall (fun a => 0 <= a <= 3) (transmittanceToAbsorbance M transmittance).
Proof.
  intros Hlog. unfold transmittanceToAbsorbance.
  split; [apply length_map|].
  rewrite Forall_forall. intros a Ha. apply in_map_iff in Ha.
  destruct Ha as [t [<- _]]. apply Hlog.
  set (c := Qmax (1 # 10) (Qmin t 100)).
  assert (Hc : 1 # 10 <= c <= 100).
  { unfold c. split; [apply Q.le_max_l|].
    apply Q.max_lub; [lra|apply Q.le_min_r]. }
  clearbody c. split.
  - apply Qle_shift_div_l; lra.
  - apply Qle_shift_div_r; lra.
Qed.

Lemma transmittanceToAbsorbance_range_witness :
  length (transmittanceToAbsorbance MathQ [0; - (5); 50; 250])
  = length [0; - (5); 50; 250] /\
  Forall (fun a => 0 <= a <= 3)
    (transmittanceToAbsorbance MathQ [0; - (5); 50; 250]).
Proof.
  apply (transmittanceToAbsorbance_range MathQ [0; - (5); 50; 250]).
  exact log10_interp_range.
Defined.










(* ================================================================== *)
(** ** Further properties of [detectPeaks] *)
(* ================================================================== *)

Lemma detectPeaks_unfold (M : MathObj) (wavenumber transmittance : list Q)
  (options : DetectOptions) :
  detectPeaks M wavenumber transmittance options
  = let wn := ascendingAxis wavenumber in
    let absorbance :=
      processedAbsorbance M wavenumber transmittance options in
    match Math_max absorbance with
    | None => Some []
    | Some maxAbs =>
        let result :=
          findPeaks absorbance
            (Qmax (or_object (minHeight options) (5 # 1000))
               (maxAbs * (1 # 100)))
            (Some (maxAbs * (or_object (prominencePercent options) 5 / 100)))
            (Some (peakDistance wn options)) in
        match allSome
                (mapi (buildPeak wn absorbance
                         (calculateFWHMWavenumber (peaks result)
                            (width (properties result)) wn)
                         (properties result)
                         (calculateSNR M (peak_heights (properties result))
                            absorbance))
                   (peaks result)) with
        | None => None
        | Some peakList => Some (js_sort byPositionDesc peakList)
        end
    end.
Proof. reflexivity. Qed.


(** The records [detectPeaks] builds, before they are sorted. *)
Lemma buildPeaks_fields (wn absorbance fwhms : list Q) (props : PeakProperties)
  (snrs : list Q) (indices : list nat) :
  forall (i : nat) (peakList : list Peak),
    allSome (mapi_from (buildPeak wn absorbance fwhms props snrs) i indices)
    = Some peakList ->
    map index peakList = indices /\
    Forall (fun p =>
              (index p < length wn)%nat /\
              position p = toFixed 2 (at_index wn (index p)) /\
              intensity p = toFixed 4 (at_index absorbance (index p)) /\
              exists k,
                nth_error indices k = Some (index p) /\
                fwhm p = toFixed 2 (at_index fwhms (i + k)) /\
                height p = toFixed 4 (at_index (peak_heights props) (i + k)) /\
                prominence p
                = toFixed 4 (at_index (prominences props) (i + k)) /\
                snr p = toFixed 2 (at_index snrs (i + k))) peakList.
Proof.
  induction indices as [|idx indices IH]; intros i peakList H.
  - injection H as <-. split; [reflexivity|constructor].
  - simpl in H. unfold buildPeak at 1 in H.
    destruct (nth_error wn idx) as [w|] eqn:E; [|discriminate].
    destruct (allSome (mapi_from _ (S i) indices)) as [rest|] eqn:Hrest;
      [|discriminate].
    injection H as <-. destruct (IH (S i) rest Hrest) as [Hidx Hall].
    split; [simpl; rewrite Hidx; reflexivity|].
    constructor.
    + simpl. split; [apply nth_error_Some; congruence|].
      rewrite (at_index_nth_error wn idx w E).
      split; [reflexivity|]. split; [reflexivity|].
      exists 0%nat. rewrite Nat.add_0_r. repeat split; reflexivity.
    + eapply Forall_impl; [|exact Hall].
      intros p [H1 [H2 [H3 [k [H4 H5]]]]].
      split; [exact H1|]. split; [exact H2|]. split; [exact H3|].
      exists (S k). rewrite <- Nat.add_succ_comm. split; [exact H4|exact H5].
Qed.



Lemma ascendingAxis_length (wavenumber : list Q) :
  length (ascendingAxis wavenumber) = length wavenumber.
Proof.
  unfold ascendingAxis. destruct (isDescending wavenumber);
    [apply length_rev|reflexivity].
Qed.



Lemma rev_head_last (l : list Q) (x : Q) (l' : list Q) (d : Q) :
  rev l = x :: l' -> last l d = x.
Proof.
  intros H. rewrite <- (rev_involutive l), H. simpl. apply last_last.
Qed.

Lemma isDescending_rev (w0 : Q) (rest : list Q) :
  ~ last (w0 :: rest) w0 == w0 ->
  isDescending (rev (w0 :: rest)) = negb (isDescending (w0 :: rest)).
Proof.
  intros Hne. unfold isDescending.
  destruct (rev (w0 :: rest)) as [|x l'] eqn:E.
  - apply (f_equal (@length Q)) in E. rewrite length_rev in E. discriminate.
  - assert (Hlast : last (x :: l') x = w0).
    { rewrite <- E. simpl rev. apply last_last. }
    rewrite Hlast. rewrite (rev_head_last _ _ _ w0 E) in *.
    destruct (Qlt_bool w0 x) eqn:E1, (Qlt_bool x w0) eqn:E2;
      try reflexivity; exfalso; q_bools; lra.
Qed.

(** X23.  [detectPeaks] does not depend on the orientation of the
    spectrum: when the first and the last wavenumber differ, the arrays
    given in reverse order yield the same result, peak for peak, with the
    same indices. *)
Theorem detectPeaks_orientation (M : MathObj) (w0 : Q) (rest : list Q)
  (transmittance : list Q) (options : DetectOptions) :
  ~ last (w0 :: rest) w0 == w0 ->
  detectPeaks M (rev (w0 :: rest)) (rev transmittance) options
  = detectPeaks M (w0 :: rest) transmittance options.
Proof.
  intros Hne. rewrite !detectPeaks_unfold.
  assert (Hwn : ascendingAxis (rev (w0 :: rest)) = ascendingAxis (w0 :: rest)).
  { unfold ascendingAxis. rewrite (isDescending_rev w0 rest Hne).
    destruct (isDescending (w0 :: rest)); simpl negb; cbv iota;
      [reflexivity|apply rev_involutive]. }
  assert (Hab : processedAbsorbance M (rev (w0 :: rest)) (rev transmittance)
                  options
                = processedAbsorbance M (w0 :: rest) transmittance options).
  { unfold processedAbsorbance. rewrite (isDescending_rev w0 rest Hne).
    destruct (isDescending (w0 :: rest)); simpl negb; cbv iota;
      [reflexivity|rewrite rev_involutive; reflexivity]. }
  rewrite Hwn, Hab. reflexivity.
Qed.

Lemma detectPeaks_orientation_witness :
  detectPeaks MathQ (rev wn10) (rev tm10) defaultOptions
  = detectPeaks MathQ wn10 tm10 defaultOptions.
Proof.
  apply (detectPeaks_orientation MathQ (1711123 # 1000)
           [1712123 # 1000; 1713123 # 1000; 1714123 # 1000;
            1715123 # 1000; 1716123 # 1000; 1717123 # 1000; 1718123 # 1000;
            1719123 # 1000; 1720123 # 1000] tm10 defaultOptions).
  vm_compute. discriminate.
Defined.

(* ================================================================== *)
(** ** From detection to annotation *)
(* ================================================================== *)

(** A multiple of [10^-digits] is left alone by the rounding. *)
Lemma toFixed_grid (digits : nat) (m : Z) :
  toFixed digits (m # Z.to_pos (10 ^ Z.of_nat digits))
  = (m # Z.to_pos (10 ^ Z.of_nat digits)).
Proof.
  unfold toFixed. set (s := Z.to_pos (10 ^ Z.of_nat digits)).
  assert (Hfloor : Qfloor (Qabs (m # s) * inject_Z (Z.pos s) + (1 # 2))
                   = Z.abs m).
  { unfold Qfloor, Qabs, Qmult, Qplus, inject_Z. cbn [Qnum Qden].
    symmetry. apply Z.div_unique with (r := Z.pos s).
    - lia.
    - rewrite !Pos2Z.inj_mul. ring. }
  rewrite Hfloor.
  destruct (Qle_bool 0 (m # s)) eqn:E.
  - apply Qle_bool_iff in E. unfold Qle in E. cbn [Qnum Qden] in E.
    f_equal. lia.
  - apply Qle_bool_false in E. unfold Qlt in E. cbn [Qnum Qden] in E.
    f_equal. lia.
Qed.

Lemma toFixed_idempotent (digits : nat) (x : Q) :
  toFixed digits (toFixed digits x) = toFixed digits x.
Proof.
  unfold toFixed at 2 3.
  destruct (Qle_bool 0 x); apply toFixed_grid.
Qed.

Lemma detectPeaks_rounded_fields (M : MathObj)
  (wavenumber transmittance : list Q) (options : DetectOptions)
  (detected : list Peak) :
  detectPeaks M wavenumber transmittance options = Some detected ->
  Forall (fun p =>
            (exists x, position p = toFixed 2 x) /\
            (exists x, intensity p = toFixed 4 x) /\
            (exists x, fwhm p = toFixed 2 x) /\
            (exists x, snr p = toFixed 2 x)) detected.
Proof.
  rewrite detectPeaks_unfold. cbv zeta.
  destruct (Math_max _) as [maxAbs|].
  2:{ intros H. injection H as <-. constructor. }
  destruct (allSome _) as [built|] eqn:Hbuilt; [|discriminate].
  intros H. injection H as <-.
  destruct (buildPeaks_fields _ _ _ _ _ _ 0 built Hbuilt) as [_ Hall].
  rewrite Forall_forall in *. intros p Hp.
  apply (proj1 (js_sort_In byPositionDesc _ _)) in Hp.
  destruct (Hall p Hp) as [_ [H2 [H3 [k [_ [H4 [_ [_ H5]]]]]]]].
  repeat split; eexists; eassumption.
Qed.

(** X24.  Detection and annotation fit together: when the peaks
    [detectPeaks] returns are given to [matchAllPeaks], every annotation
    carries the position, intensity, width and signal-to-noise ratio of
    its peak unchanged, although [matchAllPeaks] rounds them again: they
    are on the grid of the rounding already. *)
Theorem annotations_keep_detected_values (M : MathObj)
  (wavenumber transmittance : list Q) (options : DetectOptions)
  (rulesDb : RulesDb) (detected : list Peak) (annotations : list Annotation) :
  detectPeaks M wavenumber transmittance options = Some detected ->
  matchAllPeaks detected rulesDb = Some annotations ->
  Forall (fun a =>
            exists p,
              nth_error detected (an_peakIndex a) = Some p /\
              an_peakPosition a = position p /\
              an_peakIntensity a = intensity p /\
              an_peakFwhm a = fwhm p /\
              an_peakSNR a = snr p) annotations.
Proof.
  intros Hdet Hann.
  pose proof (detectPeaks_rounded_fields _ _ _ _ _ Hdet) as Hrounded.
  destruct (matchPeaksFrom_shape rulesDb detected detected 0 annotations
              eq_refl Hann) as [_ [Hall _]].
  eapply Forall_impl; [|exact Hall].
  intros a [_ [p [c0 [rest [Hnth [_ [_ [_ [_ [_ [_ [H1 [H2 [H3 H4]]]]]]]]]]]]]].
  exists p. split; [exact Hnth|].
  rewrite Forall_forall in Hrounded.
  destruct (Hrounded p (nth_error_In _ _ Hnth))
    as [[x1 E1] [[x2 E2] [[x3 E3] [x4 E4]]]].
  rewrite H1, H2, H3, H4, E1, E2, E3, E4.
  rewrite !toFixed_idempotent. repeat split; reflexivity.
Qed.

(** A database with one subtype that matches the band of the ten-point
    spectrum on the wide axis. *)
Lemma annotations_keep_detected_values_witness :
  exists detected annotations,
    detectPeaks MathQ wnWide tm10 defaultOptions = Some detected /\
    matchAllPeaks detected (dbOf [carbonylSubtype "a" None None])
    = Some annotations /\
    length annotations = 1%nat /\
    Forall (fun a =>
              exists p,
                nth_error detected (an_peakIndex a) = Some p /\
                an_peakPosition a = position p /\
                an_peakIntensity a = intensity p /\
                an_peakFwhm a = fwhm p /\
                an_peakSNR a = snr p) annotations.
Proof.
  eexists. eexists.
  split; [vm_compute; reflexivity|].
  split; [vm_compute; reflexivity|].
  split; [reflexivity|].
  apply (annotations_keep_detected_values MathQ wnWide tm10 defaultOptions
           (dbOf [carbonylSubtype "a" None None])).
  - vm_compute. reflexivity.
  - vm_compute. reflexivity.
Defined.

(* ================================================================== *)
(** ** Sorting into ascending order *)
(* ================================================================== *)

Section SortByKeyAscending.

Context {A : Type}.
Variable key : A -> Q.

Lemma sort_insert_asc (x : A) (l : list A) :
  StronglySorted (ascBy key) l ->
  StronglySorted (ascBy key) (sort_insert (keyAsc key) x l).
Proof.
  induction l as [|y l IH]; intros Hs; simpl.
  - constructor; [constructor|constructor].
  - inversion Hs as [|y' l' Hl Hy]; subst.
    destruct (Qle_bool ((keyAsc key) x y) 0) eqn:E.
    + apply Qle_bool_iff in E. unfold keyAsc in E.
      constructor; [exact Hs|].
      constructor; [unfold ascBy; lra|].
      eapply Forall_impl; [|exact Hy].
      intros z Hz. unfold ascBy in *. lra.
    + apply Qle_bool_false in E. unfold keyAsc in E.
      constructor; [apply IH; exact Hl|].
      rewrite Forall_forall. intros z Hz.
      apply (Permutation_in _
               (Permutation_sym (sort_insert_perm (keyAsc key) x l)))
        in Hz.
      destruct Hz as [<-|Hz].
      * unfold ascBy. lra.
      * rewrite Forall_forall in Hy. apply Hy. exact Hz.
Qed.

Lemma js_sort_asc (l : list A) :
  StronglySorted (ascBy key) (js_sort (keyAsc key) l).
Proof.
  induction l as [|x l IH]; simpl.
  - constructor.
  - apply sort_insert_asc. exact IH.
Qed.

(** An array that is in ascending order already is left as it is. *)
Lemma js_sort_asc_id (l : list A) :
  StronglySorted (ascBy key) l -> js_sort (keyAsc key) l = l.
Proof.
  induction 1 as [|x l Hl IH Hx]; [reflexivity|].
  simpl. rewrite IH. destruct l as [|y l']; [reflexivity|].
  simpl. inversion Hx as [|? ? Hxy _]; subst.
  assert (E : Qle_bool (keyAsc key x y) 0 = true).
  { apply Qle_bool_iff. unfold keyAsc. unfold ascBy in Hxy. lra. }
  rewrite E. reflexivity.
Qed.

End SortByKeyAscending.

(* ================================================================== *)
(** ** Cleaning a spectrum *)
(* ================================================================== *)

Lemma dedupLoop_keptFrom (pairs : list Pair) (lastWn : option Q)
  (cleaned : list Pair) :
  dedupLoop pairs lastWn cleaned = cleaned ++ keptFrom pairs lastWn.
Proof.
  revert lastWn cleaned.
  induction pairs as [|p rest IH]; intros lastWn cleaned; simpl.
  - rewrite app_nil_r. reflexivity.
  - destruct (isNewPoint lastWn p); rewrite IH; [|reflexivity].
    rewrite <- app_assoc. reflexivity.
Qed.

Lemma cleanedPairs_keptFrom (wavenumber transmittance : list Q) :
  cleanedPairs wavenumber transmittance
  = keptFrom (js_sort (keyAsc pr_wavenumber)
                (spectrumPairs wavenumber transmittance)) None.
Proof. unfold cleanedPairs. apply dedupLoop_keptFrom. Qed.

Lemma keptFrom_incl (pairs : list Pair) (lastWn : option Q) :
  incl (keptFrom pairs lastWn) pairs.
Proof.
  revert lastWn. induction pairs as [|p rest IH]; intros lastWn x Hx;
    [contradiction|].
  simpl in Hx. destruct (isNewPoint lastWn p).
  - destruct Hx as [<-|Hx]; [left; reflexivity|right; exact (IH _ x Hx)].
  - right. exact (IH _ x Hx).
Qed.

Lemma keptFrom_length (pairs : list Pair) (lastWn : option Q) :
  (length (keptFrom pairs lastWn) <= length pairs)%nat.
Proof.
  revert lastWn. induction pairs as [|p rest IH]; intros lastWn; simpl;
    [lia|].
  destruct (isNewPoint lastWn p); simpl.
  - specialize (IH (Some (pr_wavenumber p))). lia.
  - specialize (IH lastWn). lia.
Qed.

Lemma isNewPoint_true (l : Q) (p : Pair) :
  l <= pr_wavenumber p -> isNewPoint (Some l) p = true ->
  wellApart l (pr_wavenumber p).
Proof.
  unfold isNewPoint. intros Hle E. apply Qlt_bool_iff in E.
  assert (Ha : Qabs (pr_wavenumber p - l) == pr_wavenumber p - l)
    by (apply Qabs_pos; lra).
  rewrite Ha in E. unfold wellApart. lra.
Qed.

Lemma isNewPoint_false (l : Q) (p : Pair) :
  l <= pr_wavenumber p -> isNewPoint (Some l) p = false ->
  pr_wavenumber p <= l + (1 # 100).
Proof.
  unfold isNewPoint. intros Hle E. apply Qlt_bool_false in E.
  assert (Ha : Qabs (pr_wavenumber p - l) == pr_wavenumber p - l)
    by (apply Qabs_pos; lra).
  rewrite Ha in E. lra.
Qed.

(** On pairs in ascending order that all come at or after the last
    wavenumber kept, the pairs kept are more than 0.01 apart from it and
    from each other. *)
Lemma keptFrom_wellApart (pairs : list Pair) :
  StronglySorted (ascBy pr_wavenumber) pairs ->
  forall lastWn : option Q,
    (forall l, lastWn = Some l ->
               Forall (fun p => l <= pr_wavenumber p) pairs) ->
    StronglySorted (fun a b => wellApart (pr_wavenumber a) (pr_wavenumber b))
      (keptFrom pairs lastWn) /\
    (forall l, lastWn = Some l ->
               Forall (fun p => wellApart l (pr_wavenumber p))
                 (keptFrom pairs lastWn)).
Proof.
  induction 1 as [|p rest Hs IH Hp]; intros lastWn Hlast.
  - split; [constructor|]. intros l _. constructor.
  - simpl. destruct (isNewPoint lastWn p) eqn:E.
    + destruct (IH (Some (pr_wavenumber p))) as [H1 H2].
      { intros l Hl. injection Hl as <-. exact Hp. }
      specialize (H2 _ eq_refl).
      split; [constructor; assumption|].
      intros l Hl. subst lastWn. specialize (Hlast l eq_refl).
      inversion Hlast as [|? ? Hlp Hlrest]; subst.
      assert (Hw : wellApart l (pr_wavenumber p))
        by (apply isNewPoint_true; assumption).
      constructor; [exact Hw|].
      eapply Forall_impl; [|exact H2].
      intros q Hq. unfold wellApart in *. lra.
    + apply IH. intros l Hl. specialize (Hlast l Hl).
      inversion Hlast; assumption.
Qed.

(** Every pair of the sorted array is at most 0.01 above the last
    wavenumber kept before it or above a pair that is kept. *)
Lemma keptFrom_covers (pairs : list Pair) :
  StronglySorted (ascBy pr_wavenumber) pairs ->
  forall lastWn : option Q,
    (forall l, lastWn = Some l ->
               Forall (fun p => l <= pr_wavenumber p) pairs) ->
    forall p, In p pairs ->
      (exists l, lastWn = Some l /\
                 l <= pr_wavenumber p <= l + (1 # 100))
      \/ (exists k, In k (keptFrom pairs lastWn) /\
                    pr_wavenumber k <= pr_wavenumber p
                    <= pr_wavenumber k + (1 # 100)).
Proof.
  induction 1 as [|x rest Hs IH Hx]; intros lastWn Hlast p Hin;
    [contradiction|].
  simpl. destruct (isNewPoint lastWn x) eqn:E.
  - right. destruct Hin as [<-|Hin].
    + exists x. split; [left; reflexivity|]. lra.
    + destruct (IH (Some (pr_wavenumber x))) with (p := p)
        as [[l [Hl Hb]]|[k [Hk Hb]]]; [|exact Hin| |].
      * intros l Hl. injection Hl as <-. exact Hx.
      * injection Hl as <-. exists x. split; [left; reflexivity|exact Hb].
      * exists k. split; [right; exact Hk|exact Hb].
  - destruct Hin as [<-|Hin].
    + left. destruct lastWn as [l|]; [|discriminate].
      exists l. split; [reflexivity|].
      specialize (Hlast l eq_refl). inversion Hlast as [|? ? Hlx _]; subst.
      pose proof (isNewPoint_false l x Hlx E). lra.
    + apply IH; [|exact Hin].
      intros l Hl. specialize (Hlast l Hl). inversion Hlast; assumption.
Qed.

Lemma nth_error_mapi {A B : Type} (f : A -> nat -> B) (k : nat)
  (xs : list A) :
  nth_error (mapi f xs) k = option_map (fun x => f x k) (nth_error xs k).
Proof. unfold mapi. apply nth_error_mapi_from. Qed.

Lemma spectrumPairs_In (wavenumber transmittance : list Q) (p : Pair) :
  In p (spectrumPairs wavenumber transmittance) ->
  exists i, nth_error wavenumber i = Some (pr_wavenumber p) /\
            nth_error transmittance i = pr_transmittance p.
Proof.
  intros Hin. apply In_nth_error in Hin. destruct Hin as [i Hi].
  unfold spectrumPairs in Hi. rewrite nth_error_mapi in Hi.
  destruct (nth_error wavenumber i) as [w|] eqn:E; [|discriminate].
  injection Hi as <-. exists i. split; [exact E|reflexivity].
Qed.

Lemma spectrumPairs_wavenumbers (wavenumber transmittance : list Q) :
  map pr_wavenumber (spectrumPairs wavenumber transmittance) = wavenumber.
Proof.
  unfold spectrumPairs, mapi. generalize 0%nat.
  induction wavenumber as [|w rest IH]; intros i; [reflexivity|].
  simpl. rewrite IH. reflexivity.
Qed.

Lemma sortedPairs_In (wavenumber transmittance : list Q) (w : Q) :
  In w wavenumber ->
  exists p, In p (js_sort (keyAsc pr_wavenumber)
                    (spectrumPairs wavenumber transmittance)) /\
            pr_wavenumber p = w.
Proof.
  intros Hin. rewrite <- (spectrumPairs_wavenumbers wavenumber transmittance)
    in Hin.
  apply in_map_iff in Hin. destruct Hin as [p [Hp Hin]].
  exists p. split; [|exact Hp]. apply js_sort_In. exact Hin.
Qed.

Lemma cleanSpectrum_cleaned (wavenumber transmittance : list Q)
  (r : CleanedSpectrum) :
  cleanSpectrum wavenumber transmittance = Some r ->
  exists first rest,
    cleanedPairs wavenumber transmittance = first :: rest /\
    cs_wavenumber r = map pr_wavenumber (first :: rest) /\
    cs_transmittance r = map pr_transmittance (first :: rest) /\
    cs_dataPoints r = length (first :: rest) /\
    cs_wavenumberRange r
    = (pr_wavenumber first, pr_wavenumber (last (first :: rest) first)) /\
    cs_transmittanceRange r = rangeOf (map pr_transmittance (first :: rest)).
Proof.
  unfold cleanSpectrum.
  destruct (cleanedPairs wavenumber transmittance) as [|first rest];
    [discriminate|].
  intros H. injection H as <-. exists first, rest.
  repeat split; reflexivity.
Qed.

Lemma Forall2_map_same {A B C : Type} (R : B -> C -> Prop) (f : A -> B)
  (g : A -> C) (l : list A) :
  Forall (fun a => R (f a) (g a)) l -> Forall2 R (map f l) (map g l).
Proof. induction 1; simpl; constructor; assumption. Qed.

Lemma StronglySorted_map {A B : Type} (R : B -> B -> Prop) (f : A -> B)
  (l : list A) :
  StronglySorted (fun a b => R (f a) (f b)) l -> StronglySorted R (map f l).
Proof.
  induction 1 as [|x l Hl IH Hx]; simpl; constructor; [exact IH|].
  rewrite Forall_forall in *. intros y Hy. apply in_map_iff in Hy.
  destruct Hy as [a [<- Ha]]. apply Hx. exact Ha.
Qed.

Lemma cleanedPairs_wellApart (wavenumber transmittance : list Q) :
  StronglySorted (fun a b => wellApart (pr_wavenumber a) (pr_wavenumber b))
    (cleanedPairs wavenumber transmittance).
Proof.
  rewrite cleanedPairs_keptFrom.
  apply keptFrom_wellApart; [apply js_sort_asc|]. intros l Hl. discriminate.
Qed.

(** X25.  What [cleanSpectrum] returns is in strictly ascending order of
    wavenumber with more than 0.01 cm-1 between any two points; each of
    its points is a point of the input, wavenumber and transmittance
    taken at one and the same index (the transmittance is undefined when
    that array is too short); the two arrays have [dataPoints] elements,
    at least one and no more than the input. *)
Theorem cleanSpectrum_points (wavenumber transmittance : list Q)
  (r : CleanedSpectrum) :
  cleanSpectrum wavenumber transmittance = Some r ->
  StronglySorted wellApart (cs_wavenumber r) /\
  Forall2 (fun w t => exists i, nth_error wavenumber i = Some w /\
                                nth_error transmittance i = t)
    (cs_wavenumber r) (cs_transmittance r) /\
  length (cs_wavenumber r) = cs_dataPoints r /\
  length (cs_transmittance r) = cs_dataPoints r /\
  (1 <= cs_dataPoints r <= length wavenumber)%nat.
Proof.
  intros H.
  destruct (cleanSpectrum_cleaned _ _ _ H)
    as [first [rest [Hc [Hw [Ht [Hn _]]]]]].
  rewrite Hw, Ht, Hn, <- Hc.
  split; [|split; [|split; [|split]]].
  - apply StronglySorted_map. apply cleanedPairs_wellApart.
  - apply Forall2_map_same. rewrite Forall_forall. intros p Hp.
    rewrite cleanedPairs_keptFrom in Hp. apply keptFrom_incl in Hp.
    apply js_sort_In in Hp. apply spectrumPairs_In. exact Hp.
  - apply length_map.
  - apply length_map.
  - split; [rewrite Hc; simpl; lia|].
    rewrite cleanedPairs_keptFrom.
    eapply Nat.le_trans; [apply keptFrom_length|].
    rewrite js_sort_length. unfold spectrumPairs. rewrite mapi_length. lia.
Qed.

Lemma cleanSpectrum_points_witness :
  exists r,
    cleanSpectrum [402; 400; 400005 # 1000; 401] [80; 90; 91; 85] = Some r /\
    cs_wavenumber r = [400; 401; 402] /\
    cs_transmittance r = [Some 90; Some 85; Some 80] /\
    StronglySorted wellApart (cs_wavenumber r) /\
    Forall2 (fun w t =>
               exists i,
                 nth_error [402; 400; 400005 # 1000; 401] i = Some w /\
                 nth_error [80; 90; 91; 85] i = t)
      (cs_wavenumber r) (cs_transmittance r) /\
    length (cs_wavenumber r) = cs_dataPoints r /\
    length (cs_transmittance r) = cs_dataPoints r /\
    (1 <= cs_dataPoints r <= 4)%nat.
Proof.
  eexists. split; [vm_compute; reflexivity|].
  split; [reflexivity|]. split; [reflexivity|].
  apply (cleanSpectrum_points [402; 400; 400005 # 1000; 401]
           [80; 90; 91; 85]).
  vm_compute. reflexivity.
Defined.

Lemma cleanedPairs_nonempty (w : Q) (rest transmittance : list Q) :
  exists first others,
    cleanedPairs (w :: rest) transmittance = first :: others.
Proof.
  rewrite cleanedPairs_keptFrom.
  pose proof (js_sort_length (keyAsc pr_wavenumber)
                (spectrumPairs (w :: rest) transmittance)) as Hlen.
  unfold spectrumPairs in Hlen at 2. rewrite mapi_length in Hlen.
  destruct (js_sort (keyAsc pr_wavenumber)
              (spectrumPairs (w :: rest) transmittance)) as [|p ps];
    [discriminate|].
  simpl. eexists. eexists. reflexivity.
Qed.

(** X26.  [cleanSpectrum] throws exactly when the wavenumber array is
    empty (it reads the first cleaned point, and there is none); the
    length and the content of the transmittance array play no part in
    that. *)
Theorem cleanSpectrum_throws_iff_empty (wavenumber transmittance : list Q) :
  cleanSpectrum wavenumber transmittance = None <-> wavenumber = [].
Proof.
  split.
  - destruct wavenumber as [|w rest]; [reflexivity|]. intros H. exfalso.
    unfold cleanSpectrum in H.
    destruct (cleanedPairs_nonempty w rest transmittance)
      as [first [others E]].
    rewrite E in H. discriminate.
  - intros ->. reflexivity.
Qed.

(** X27.  Cleaning loses no region of the spectrum: every wavenumber of
    the input is at most 0.01 cm-1 above a wavenumber that is kept; the
    lower end of [wavenumberRange] is a wavenumber of the input and no
    input wavenumber is below it, the upper end is a kept wavenumber and
    no input wavenumber is more than 0.01 above it. *)
Theorem cleanSpectrum_covers_input (wavenumber transmittance : list Q)
  (r : CleanedSpectrum) :
  cleanSpectrum wavenumber transmittance = Some r ->
  Forall (fun w => exists k, In k (cs_wavenumber r) /\
                             k <= w <= k + (1 # 100)) wavenumber /\
  In (fst (cs_wavenumberRange r)) wavenumber /\
  In (snd (cs_wavenumberRange r)) (cs_wavenumber r) /\
  Forall (fun w => fst (cs_wavenumberRange r) <= w
                   <= snd (cs_wavenumberRange r) + (1 # 100)) wavenumber.
Proof.
  intros H.
  destruct (cleanSpectrum_cleaned _ _ _ H)
    as [first [rest [Hc [Hw [_ [_ [Hr _]]]]]]].
  pose proof (cleanedPairs_wellApart wavenumber transmittance) as Hsorted.
  rewrite Hc in Hsorted.
  assert (Hcover : Forall (fun w => exists k, In k (first :: rest) /\
                                      pr_wavenumber k <= w
                                      <= pr_wavenumber k + (1 # 100))
                     wavenumber).
  { rewrite Forall_forall. intros w Hin.
    destruct (sortedPairs_In wavenumber transmittance w Hin) as [p [Hp <-]].
    destruct (keptFrom_covers _ (js_sort_asc pr_wavenumber
                                   (spectrumPairs wavenumber transmittance))
                None ltac:(intros l Hl; discriminate) p Hp)
      as [[l [Hl _]]|[k [Hk Hb]]]; [discriminate|].
    rewrite <- cleanedPairs_keptFrom, Hc in Hk. exists k. split; assumption. }
  assert (Hlast : In (last (first :: rest) first) (first :: rest)).
  { clear. generalize first at 1 3. induction rest as [|x rest IH];
      intros d; [left; reflexivity|].
    right. destruct rest as [|y rest']; [left; reflexivity|].
    apply (IH x). }
  assert (Hmax : Forall (fun k => pr_wavenumber k
                                  <= pr_wavenumber (last (first :: rest)
                                                      first))
                   (first :: rest)).
  { clear - Hsorted. revert Hsorted. generalize first at 1 2 4.
    induction rest as [|x rest IH]; intros d Hs.
    - constructor; [apply Qle_refl|constructor].
    - inversion Hs as [|? ? Hs' Hd]; subst.
      specialize (IH x Hs').
      change (last (d :: x :: rest) first) with (last (x :: rest) first).
      constructor; [|exact IH].
      inversion Hd as [|? ? Hdx _]; subst. unfold wellApart in Hdx.
      inversion IH as [|? ? Hx _]; subst. lra. }
  rewrite Hr, Hw. cbn [fst snd].
  split; [|split; [|split]].
  - eapply Forall_impl; [|exact Hcover].
    intros w [k [Hk Hb]]. exists (pr_wavenumber k).
    split; [apply in_map; exact Hk|exact Hb].
  - assert (Hf : In first (cleanedPairs wavenumber transmittance))
      by (rewrite Hc; left; reflexivity).
    rewrite cleanedPairs_keptFrom in Hf. apply keptFrom_incl in Hf.
    apply js_sort_In in Hf. apply spectrumPairs_In in Hf.
    destruct Hf as [i [Hi _]]. apply nth_error_In with i. exact Hi.
  - apply in_map. exact Hlast.
  - rewrite Forall_forall in *. intros w Hin.
    destruct (Hcover w Hin) as [k [Hk Hb]].
    specialize (Hmax k Hk). split; [|lra].
    destruct Hk as [<-|Hk]; [lra|].
    inversion Hsorted as [|? ? _ Hfirst]; subst.
    rewrite Forall_forall in Hfirst. specialize (Hfirst k Hk).
    unfold wellApart in Hfirst. lra.
Qed.

Lemma cleanSpectrum_covers_input_witness :
  exists r,
    cleanSpectrum [402; 400; 400005 # 1000; 401] [80; 90; 91; 85] = Some r /\
    cs_wavenumberRange r = (400, 402) /\
    Forall (fun w => exists k, In k (cs_wavenumber r) /\
                               k <= w <= k + (1 # 100))
      [402; 400; 400005 # 1000; 401] /\
    In (fst (cs_wavenumberRange r)) [402; 400; 400005 # 1000; 401] /\
    In (snd (cs_wavenumberRange r)) (cs_wavenumber r) /\
    Forall (fun w => fst (cs_wavenumberRange r) <= w
                     <= snd (cs_wavenumberRange r) + (1 # 100))
      [402; 400; 400005 # 1000; 401].
Proof.
  eexists. split; [vm_compute; reflexivity|].
  split; [reflexivity|].
  apply (cleanSpectrum_covers_input [402; 400; 400005 # 1000; 401]
           [80; 90; 91; 85]).
  vm_compute. reflexivity.
Defined.

Lemma allSome_map_Some {A : Type} (l : list (option A)) (ys : list A) :
  allSome l = Some ys -> l = map Some ys.
Proof.
  revert ys. induction l as [|o l IH]; intros ys H.
  - injection H as <-. reflexivity.
  - simpl in H. destruct o as [x|]; [|discriminate].
    destruct (allSome l) as [zs|]; [|discriminate].
    injection H as <-. simpl. rewrite (IH zs eq_refl). reflexivity.
Qed.

Lemma allSome_defined {A : Type} (l : list (option A)) :
  Forall (fun o => o <> None) l -> exists ys, allSome l = Some ys.
Proof.
  induction 1 as [|o l Ho _ [ys IH]]; [exists []; reflexivity|].
  destruct o as [x|]; [|contradiction].
  exists (x :: ys). simpl. rewrite IH. reflexivity.
Qed.

Lemma spectrumPairs_rebuild (l : list Pair) :
  forall pre ts : list Q,
    map pr_transmittance l = map Some ts ->
    mapi_from (fun wn i => {| pr_wavenumber := wn;
                              pr_transmittance := nth_error (pre ++ ts) i |})
      (length pre) (map pr_wavenumber l) = l.
Proof.
  induction l as [|p l IH]; intros pre ts H; [reflexivity|].
  destruct ts as [|t ts]; [discriminate|].
  simpl in H. injection H as Hp Hl. simpl. f_equal.
  - rewrite nth_error_app2 by lia. rewrite Nat.sub_diag. simpl.
    destruct p as [w o]. simpl in *. subst o. reflexivity.
  - specialize (IH (pre ++ [t]) ts Hl).
    rewrite <- app_assoc in IH. simpl in IH.
    rewrite length_app in IH. simpl in IH.
    rewrite Nat.add_1_r in IH. exact IH.
Qed.

Lemma isNewPoint_wellApart (l : Q) (p : Pair) :
  wellApart l (pr_wavenumber p) -> isNewPoint (Some l) p = true.
Proof.
  unfold wellApart, isNewPoint. intros H. apply Qlt_bool_iff.
  assert (Ha : Qabs (pr_wavenumber p - l) == pr_wavenumber p - l)
    by (apply Qabs_pos; lra).
  rewrite Ha. lra.
Qed.

Lemma keptFrom_id (l : list Pair) :
  StronglySorted (fun a b => wellApart (pr_wavenumber a) (pr_wavenumber b))
    l ->
  forall lastWn : option Q,
    (forall x, lastWn = Some x ->
               Forall (fun p => wellApart x (pr_wavenumber p)) l) ->
    keptFrom l lastWn = l.
Proof.
  induction 1 as [|p l Hl IH Hp]; intros lastWn Hlast; [reflexivity|].
  simpl.
  assert (E : isNewPoint lastWn p = true).
  { destruct lastWn as [x|]; [|reflexivity].
    specialize (Hlast x eq_refl). inversion Hlast; subst.
    apply isNewPoint_wellApart. assumption. }
  rewrite E. f_equal. apply IH. intros x Hx. injection Hx as <-. exact Hp.
Qed.

Lemma cleanedPairs_fixed (l : list Pair) (ts : list Q) :
  StronglySorted (fun a b => wellApart (pr_wavenumber a) (pr_wavenumber b))
    l ->
  map pr_transmittance l = map Some ts ->
  cleanedPairs (map pr_wavenumber l) ts = l.
Proof.
  intros Hs Ht. rewrite cleanedPairs_keptFrom.
  assert (Hp : spectrumPairs (map pr_wavenumber l) ts = l)
    by (apply (spectrumPairs_rebuild l [] ts Ht)).
  rewrite Hp. rewrite js_sort_asc_id.
  - apply keptFrom_id; [exact Hs|]. intros x Hx. discriminate.
  - clear - Hs. induction Hs as [|p l Hl IH Hp]; constructor; [exact IH|].
    eapply Forall_impl; [|exact Hp].
    intros q Hq. unfold wellApart in Hq. unfold ascBy. lra.
Qed.

(** X28.  [cleanSpectrum] is idempotent: cleaning a cleaned spectrum,
    one in which every transmittance is defined, returns the same
    spectrum, field for field. *)
Theorem cleanSpectrum_idempotent (wavenumber transmittance : list Q)
  (r : CleanedSpectrum) (ts : list Q) :
  cleanSpectrum wavenumber transmittance = Some r ->
  allSome (cs_transmittance r) = Some ts ->
  cleanSpectrum (cs_wavenumber r) ts = Some r.
Proof.
  intros H Hts.
  pose proof (cleanedPairs_wellApart wavenumber transmittance) as Hs.
  unfold cleanSpectrum in H.
  destruct (cleanedPairs wavenumber transmittance) as [|first rest] eqn:Hc;
    [discriminate|].
  injection H as <-. cbn [cs_wavenumber cs_transmittance] in *.
  apply allSome_map_Some in Hts.
  unfold cleanSpectrum.
  change (pr_wavenumber first :: map pr_wavenumber rest)
    with (map pr_wavenumber (first :: rest)).
  rewrite (cleanedPairs_fixed (first :: rest) ts Hs Hts). reflexivity.
Qed.

Lemma cleanSpectrum_idempotent_witness :
  exists r,
    cleanSpectrum [402; 400; 400005 # 1000; 401] [80; 90; 91; 85] = Some r /\
    cleanSpectrum (cs_wavenumber r) [90; 85; 80] = Some r.
Proof.
  eexists. split; [vm_compute; reflexivity|].
  apply (cleanSpectrum_idempotent [402; 400; 400005 # 1000; 401]
           [80; 90; 91; 85] _ [90; 85; 80]).
  - vm_compute. reflexivity.
  - vm_compute. reflexivity.
Defined.

(* ================================================================== *)
(** ** From validation to detection *)
(* ================================================================== *)

Lemma processedAbsorbance_length (M : MathObj)
  (wavenumber transmittance : list Q) (options : DetectOptions) :
  length (processedAbsorbance M wavenumber transmittance options)
  = length transmittance.
Proof.
  unfold processedAbsorbance.
  destruct (String.eqb _ _); [rewrite removeLinearBaseline_length|];
    rewrite savitzkyGolayFilter_length; unfold transmittanceToAbsorbance;
    rewrite length_map; destruct (isDescending wavenumber);
    try rewrite length_rev; reflexivity.
Qed.

(** On arrays of one length [detectPeaks] returns. *)
Lemma detectPeaks_returns (M : MathObj) (wavenumber transmittance : list Q)
  (options : DetectOptions) :
  length wavenumber = length transmittance ->
  exists peakList,
    detectPeaks M wavenumber transmittance options = Some peakList.
Proof.
  intros Hlen. rewrite detectPeaks_unfold. cbv zeta.
  destruct (Math_max _) as [maxAbs|]; [|exists []; reflexivity].
  match goal with
  | |- context [allSome (mapi (buildPeak ?wn ?ab ?fw ?props ?snrs) ?idx)] =>
      destruct (buildPeaks_spec wn ab fw props snrs idx 0) as [built [Hb _]]
  end.
  - rewrite ascendingAxis_length, Hlen.
    rewrite <- (processedAbsorbance_length M wavenumber transmittance options).
    apply findPeaks_in_range.
  - unfold mapi. rewrite Hb. eexists. reflexivity.
Qed.

Lemma fold_min_bound (xs : list Q) (a : Q) :
  exists m,
    fold_left (fun acc x => match acc with
                            | None => Some x
                            | Some m => Some (Qmin m x)
                            end) xs (Some a) = Some m /\
    m <= a /\ Forall (fun x => m <= x) xs.
Proof.
  revert a. induction xs as [|x xs IH]; intros a; simpl.
  - exists a. split; [reflexivity|]. split; [apply Qle_refl|constructor].
  - destruct (IH (Qmin a x)) as [m [H1 [H2 H3]]].
    exists m. split; [exact H1|].
    pose proof (Q.le_min_l a x). pose proof (Q.le_min_r a x).
    split; [lra|]. constructor; [lra|exact H3].
Qed.

Lemma fold_max_bound (xs : list Q) (a : Q) :
  exists m,
    fold_left (fun acc x => match acc with
                            | None => Some x
                            | Some m => Some (Qmax m x)
                            end) xs (Some a) = Some m /\
    a <= m /\ Forall (fun x => x <= m) xs.
Proof.
  revert a. induction xs as [|x xs IH]; intros a; simpl.
  - exists a. split; [reflexivity|]. split; [apply Qle_refl|constructor].
  - destruct (IH (Qmax a x)) as [m [H1 [H2 H3]]].
    exists m. split; [exact H1|].
    pose proof (Q.le_max_l a x). pose proof (Q.le_max_r a x).
    split; [lra|]. constructor; [lra|exact H3].
Qed.

Lemma rangeOf_defined (t : Q) (ts : list Q) :
  exists lo hi,
    rangeOf (map Some (t :: ts)) = Some (lo, hi) /\
    Forall (fun x => lo <= x <= hi) (t :: ts).
Proof.
  unfold rangeOf.
  assert (E : allSome (map Some (t :: ts)) = Some (t :: ts)).
  { generalize (t :: ts). intros l. induction l as [|x l IH]; [reflexivity|].
    simpl. rewrite IH. reflexivity. }
  rewrite E. unfold Math_min, Math_max. simpl fold_left.
  destruct (fold_min_bound ts t) as [lo [H1 [H2 H3]]].
  destruct (fold_max_bound ts t) as [hi [H4 [H5 H6]]].
  rewrite H1, H4. exists lo, hi. split; [reflexivity|].
  constructor; [split; assumption|].
  rewrite Forall_forall in *. intros x Hx. split; [apply H3|apply H6];
    exact Hx.
Qed.

Lemma wellApart_first_le_last (l : list Q) :
  forall x d : Q,
    StronglySorted wellApart (x :: l) -> x <= last (x :: l) d.
Proof.
  induction l as [|y l IH]; intros x d Hs; [apply Qle_refl|].
  inversion Hs as [|? ? Hs' Hx]; subst.
  inversion Hx as [|? ? Hxy _]; subst. unfold wellApart in Hxy.
  change (last (x :: y :: l) d) with (last (y :: l) d).
  specialize (IH y d Hs'). lra.
Qed.

Lemma validateSpectrum_passes (wavenumber transmittance : list Q) :
  validateSpectrum wavenumber transmittance = None ->
  length wavenumber = length transmittance /\
  (10 <= length wavenumber)%nat /\
  (exists v, In v transmittance /\ ~ v == 0) /\
  (exists v, In v transmittance /\ ~ v == 100).
Proof.
  unfold validateSpectrum.
  destruct (length wavenumber =? length transmittance)%nat eqn:E1;
    [|discriminate].
  destruct (length wavenumber <? 10)%nat eqn:E2; [discriminate|].
  destruct (forallb (fun v => Qeq_bool v 0) transmittance) eqn:E3;
    [discriminate|].
  destruct (forallb (fun v => Qeq_bool v 100) transmittance) eqn:E4;
    [discriminate|].
  intros _. apply Nat.eqb_eq in E1. apply Nat.ltb_ge in E2.
  split; [exact E1|]. split; [exact E2|]. split.
  - clear - E3. induction transmittance as [|v l IH]; [discriminate|].
    simpl in E3. apply andb_false_iff in E3. destruct E3 as [E|E].
    + exists v. split; [left; reflexivity|]. apply Qeq_bool_neq. exact E.
    + destruct (IH E) as [u [Hu Hne]]. exists u.
      split; [right; exact Hu|exact Hne].
  - clear - E4. induction transmittance as [|v l IH]; [discriminate|].
    simpl in E4. apply andb_false_iff in E4. destruct E4 as [E|E].
    + exists v. split; [left; reflexivity|]. apply Qeq_bool_neq. exact E.
    + destruct (IH E) as [u [Hu Hne]]. exists u.
      split; [right; exact Hu|exact Hne].
Qed.

(** X29.  A spectrum that passes [validateSpectrum] goes through the
    rest of the pipeline without an exception: [cleanSpectrum] returns,
    every transmittance it keeps is defined and lies within the
    [transmittanceRange] it reports, which is no NaN; its wavenumbers do
    not count as descending, so [detectPeaks] takes the cleaned arrays as
    they are, and it returns on them for every choice of options. *)
Theorem validated_spectrum_is_processed (M : MathObj)
  (wavenumber transmittance : list Q) :
  validateSpectrum wavenumber transmittance = None ->
  exists r ts lo hi,
    cleanSpectrum wavenumber transmittance = Some r /\
    cs_transmittance r = map Some ts /\
    cs_transmittanceRange r = Some (lo, hi) /\
    Forall (fun t => lo <= t <= hi) ts /\
    isDescending (cs_wavenumber r) = false /\
    forall options, exists peakList,
      detectPeaks M (cs_wavenumber r) ts options = Some peakList.
Proof.
  intros Hv. apply validateSpectrum_passes in Hv.
  destruct Hv as [Hlen [Hten _]].
  destruct wavenumber as [|w rest]; [simpl in Hten; lia|].
  destruct (cleanedPairs_nonempty w rest transmittance)
    as [first [others Hc]].
  pose proof (cleanedPairs_wellApart (w :: rest) transmittance) as Hs.
  assert (Hdef : Forall (fun o => o <> None)
                   (map pr_transmittance (first :: others))).
  { rewrite Forall_forall. intros o Ho. apply in_map_iff in Ho.
    destruct Ho as [p [<- Hp]]. rewrite <- Hc in Hp.
    rewrite cleanedPairs_keptFrom in Hp. apply keptFrom_incl in Hp.
    apply js_sort_In in Hp. apply spectrumPairs_In in Hp.
    destruct Hp as [i [Hi <-]]. apply nth_error_Some. rewrite <- Hlen.
    apply nth_error_Some. congruence. }
  destruct (allSome_defined _ Hdef) as [ts Hts].
  apply allSome_map_Some in Hts.
  destruct ts as [|t ts]; [discriminate|].
  destruct (rangeOf_defined t ts) as [lo [hi [Hr Hb]]].
  unfold cleanSpectrum. rewrite Hc in *.
  eexists. exists (t :: ts), lo, hi.
  split; [reflexivity|]. cbn [cs_wavenumber cs_transmittance
                              cs_transmittanceRange].
  split; [exact Hts|]. split; [rewrite Hts; exact Hr|].
  split; [exact Hb|]. split.
  - apply StronglySorted_map in Hs. simpl map in Hs. simpl map.
    unfold isDescending.
    pose proof (wellApart_first_le_last _ _ (pr_wavenumber first) Hs) as Hle.
    destruct (Qlt_bool _ _) eqn:E; [|reflexivity].
    apply Qlt_bool_iff in E. lra.
  - intros options. apply detectPeaks_returns.
    rewrite length_map.
    rewrite <- (length_map pr_transmittance), Hts. apply length_map.
Qed.

Lemma validated_spectrum_is_processed_witness :
  exists r ts lo hi,
    cleanSpectrum wn10 tm10 = Some r /\
    cs_transmittance r = map Some ts /\
    cs_transmittanceRange r = Some (lo, hi) /\
    Forall (fun t => lo <= t <= hi) ts /\
    isDescending (cs_wavenumber r) = false /\
    forall options, exists peakList,
      detectPeaks MathQ (cs_wavenumber r) ts options = Some peakList.
Proof.
  apply (validated_spectrum_is_processed MathQ wn10 tm10).
  vm_compute. reflexivity.
Defined.
